(** * Calendar API: free-slot computation and the booking timestamp parser

    A shallow embedding of the two pieces of logic of the calendar service:

    - [CalendarBackend.find_free_slots], the slot computation of
      [calendar_api/calendar_backend.py] (the part that runs once the work
      window and the busy list have been built, i.e. from [busy.sort] to the
      [return]);
    - [Main.parse_as_local], the permissive timestamp parser of
      [calendar_api/main.py], together with the library functions it calls
      ([str.endswith], slicing, [datetime.strptime], [datetime.replace],
      [datetime.isoformat]).

    Definitions come first, the theorems follow. *)

From Stdlib Require Import ZArith List Lia Bool String Ascii.
From Stdlib Require Import Sorting.Sorted Sorting.Permutation.
Import ListNotations.

Open Scope Z_scope.

(* ================================================================= *)
(** * Part I: definitions *)
(* ================================================================= *)

Module CalendarBackend.

(** ** Instants

    Every datetime that reaches the slot loops carries the same [LOCAL_TZ]
    object.  For such datetimes Python compares the wall-clock fields only
    and [datetime + timedelta] adds to the wall clock, so an instant is
    modelled by its wall-clock reading in microseconds (the resolution of
    [datetime]) counted from a fixed origin.  The bounded year range of
    [datetime] is not part of the model: instants range over all of [Z]. *)

Definition instant := Z.

(** [timedelta(minutes=m)], in microseconds. *)
Definition timedelta_minutes (m : Z) : Z := m * 60000000.


(** Wall clock [h:m] on the day whose midnight is the origin. *)
Definition clock (h m : Z) : instant := timedelta_minutes (60 * h + m).

(** A busy entry is the tuple [(start_dt, end_dt)] appended to [busy]. *)
Definition interval := (instant * instant)%type.

(** A free slot is the dict [{"start": ..., "end": ...}]; the two
    [isoformat] strings are kept as the instants they render. *)
Record slot := mk_slot { slot_start : instant; slot_end : instant }.

(** ** [busy.sort(key=lambda x: x[0])]

    Python's sort is stable; a stable sort has a unique result, computed
    here by insertion. *)

Fixpoint insert_by_start (b : interval) (l : list interval) : list interval :=
  match l with
  | [] => [b]
  | c :: l' => if fst b <=? fst c then b :: c :: l'
               else c :: insert_by_start b l'
  end.

Fixpoint sort_by_start (l : list interval) : list interval :=
  match l with
  | [] => []
  | b :: l' => insert_by_start b (sort_by_start l')
  end.

(** ** The slot loops

    Both [while] loops of the source have the same shape,

      while s + timedelta(minutes=d) <= limit:
          slot_end = s + timedelta(minutes=d)
          free_slots.append({"start": s, "end": slot_end})
          s = slot_end

    [fuel] bounds the number of times the loop condition is evaluated;
    [None] means the bound was reached.  The loop returns the final value
    of [s] and the extended [free_slots]. *)

Fixpoint emit_slots (fuel : nat) (duration_minutes : Z) (limit s : instant)
         (free_slots : list slot) : option (instant * list slot) :=
  match fuel with
  | O => None
  | S fuel' =>
      if s + timedelta_minutes duration_minutes <=? limit then
        let slot_end := s + timedelta_minutes duration_minutes in
        emit_slots fuel' duration_minutes limit slot_end
                   (free_slots ++ [mk_slot s slot_end])
      else Some (s, free_slots)
  end.

(** [for b_start, b_end in busy: ...]: the inner loop runs on the local
    [slot_start], whose final value is dropped; [cursor] becomes
    [max(cursor, b_end)]. *)
Fixpoint scan_busy (fuel : nat) (duration_minutes : Z) (busy : list interval)
         (cursor : instant) (free_slots : list slot)
  : option (instant * list slot) :=
  match busy with
  | [] => Some (cursor, free_slots)
  | (b_start, b_end) :: rest =>
      match (if b_start >? cursor
             then emit_slots fuel duration_minutes b_start cursor free_slots
             else Some (cursor, free_slots)) with
      | None => None
      | Some (_, free_slots') =>
          scan_busy fuel duration_minutes rest (Z.max cursor b_end) free_slots'
      end
  end.

(** [find_free_slots] from [busy.sort] on.  [day_start] and [day_end] are the
    work window, [busy] the list built from the fetched events. *)
Definition find_free_slots (fuel : nat) (day_start day_end : instant)
           (busy : list interval) (duration_minutes : Z) : option (list slot) :=
  let busy := sort_by_start busy in
  match scan_busy fuel duration_minutes busy day_start [] with
  | None => None
  | Some (cursor, free_slots) =>
      match emit_slots fuel duration_minutes day_end cursor free_slots with
      | None => None
      | Some (_, free_slots') => Some free_slots'
      end
  end.

(** ** Vocabulary of the statements *)

(** Order of the sort key. *)
Definition start_le (a b : interval) : Prop := fst a <= fst b.

(** A slot and a busy interval overlap when they share more than an
    endpoint. *)
Definition overlaps (sl : slot) (b : interval) : Prop :=
  slot_start sl < snd b /\ fst b < slot_end sl.

(** Chronological order: for any two slots in list order, the earlier one
    starts strictly before the later one and ends no later than it starts. *)
Definition before (a b : slot) : Prop :=
  slot_start a < slot_start b /\ slot_end a <= slot_start b.

Definition chronological (slots : list slot) : Prop := StronglySorted before slots.

(** Length of the work window in whole minutes. *)
Definition window_minutes (day_start day_end : instant) : Z :=
  (day_end - day_start) / timedelta_minutes 1.

(** ** Closed form of the loops, used in the proofs *)

(** [n] back-to-back slots of length [D] from [s]. *)
Fixpoint tiles (s D : Z) (n : nat) : list slot :=
  match n with
  | O => []
  | S n' => mk_slot s (s + D) :: tiles (s + D) D n'
  end.

(** How many slots of length [D] fit between [lo] and [hi]. *)
Definition gap_count (D lo hi : Z) : nat := Z.to_nat ((hi - lo) / D).

Definition gap_slots (D lo hi : Z) : list slot := tiles lo D (gap_count D lo hi).

(** What the [for] loop appends and where it leaves the cursor. *)
Fixpoint sweep (D : Z) (busy : list interval) (cursor : instant)
  : list slot * instant :=
  match busy with
  | [] => ([], cursor)
  | (b_start, b_end) :: rest =>
      let '(l, c) := sweep D rest (Z.max cursor b_end) in
      ((if b_start >? cursor then gap_slots D cursor b_start else []) ++ l, c)
  end.

Definition free_slots_of (D : Z) (day_start day_end : instant)
           (busy : list interval) : list slot :=
  let '(l, c) := sweep D (sort_by_start busy) day_start in
  l ++ gap_slots D c day_end.

(** Where the cursor ends when no busy interval starts after it; [None] as
    soon as one does. *)
Fixpoint quiet_cursor (busy : list interval) (cursor : instant) : option instant :=
  match busy with
  | [] => Some cursor
  | (b_start, b_end) :: rest =>
      if b_start >? cursor then None
      else quiet_cursor rest (Z.max cursor b_end)
  end.

End CalendarBackend.

Module Main.

Open Scope string_scope.
Open Scope Z_scope.

(** ** Exceptions

    Every failure of the modelled code is a [ValueError]. *)

Inductive exn := ValueError.

Inductive result (A : Type) : Type :=
| Ok (a : A)
| Raise (e : exn).
Arguments Ok {A} a.
Arguments Raise {A} e.

Definition bind {A B : Type} (r : result A) (k : A -> result B) : result B :=
  match r with
  | Ok a => k a
  | Raise e => Raise e
  end.

Notation "x <- r ;; k" := (bind r (fun x => k))
  (at level 61, r at next level, right associativity).

(** ** [datetime] *)

Inductive tzinfo := ZoneInfo (key : string).

Definition LOCAL_TZ : tzinfo := ZoneInfo "America/Los_Angeles".

Record datetime := mk_datetime {
  year : Z; month : Z; day : Z;
  hour : Z; minute : Z; second : Z; microsecond : Z;
  tz : option tzinfo
}.

(** [year % 4 == 0 and (year % 100 != 0 or year % 400 == 0)] *)
Definition is_leap (y : Z) : bool :=
  (y mod 4 =? 0) && (negb (y mod 100 =? 0) || (y mod 400 =? 0)).

(** [_DAYS_IN_MONTH], with its unused first entry. *)
Definition DAYS_IN_MONTH : list Z :=
  [-1; 31; 28; 31; 30; 31; 30; 31; 31; 30; 31; 30; 31]%list.

Definition days_in_month (y m : Z) : Z :=
  if (m =? 2) && is_leap y then 29
  else nth (Z.to_nat m) DAYS_IN_MONTH 0.

(** [_check_date_fields]: year in 1..9999, month in 1..12, day in
    1..days_in_month. *)
Definition check_date_fields (y m d : Z) : result unit :=
  if negb ((1 <=? y) && (y <=? 9999)) then Raise ValueError
  else if negb ((1 <=? m) && (m <=? 12)) then Raise ValueError
  else if negb ((1 <=? d) && (d <=? days_in_month y m)) then Raise ValueError
  else Ok tt.

(** [_check_time_fields]: hour in 0..23, minute and second in 0..59,
    microsecond in 0..999999. *)
Definition check_time_fields (h mi s us : Z) : result unit :=
  if negb ((0 <=? h) && (h <=? 23)) then Raise ValueError
  else if negb ((0 <=? mi) && (mi <=? 59)) then Raise ValueError
  else if negb ((0 <=? s) && (s <=? 59)) then Raise ValueError
  else if negb ((0 <=? us) && (us <=? 999999)) then Raise ValueError
  else Ok tt.

(** The constructor [datetime(year, month, day, hour, minute, second,
    microsecond, tzinfo)]. *)
Definition datetime_new (y m d h mi s us : Z) (z : option tzinfo)
  : result datetime :=
  _ <- check_date_fields y m d ;;
  _ <- check_time_fields h mi s us ;;
  Ok (mk_datetime y m d h mi s us z).

(** [dt.replace(tzinfo=z)]: the other fields are kept. *)
Definition replace_tzinfo (dt : datetime) (z : tzinfo) : datetime :=
  mk_datetime (year dt) (month dt) (day dt)
              (hour dt) (minute dt) (second dt) (microsecond dt) (Some z).

(** ** Strings

    A string is a sequence of characters with code points below 256. *)

(** [s.endswith(suffix)] *)
Definition endswith (s suffix : string) : bool :=
  let n := String.length s in
  let m := String.length suffix in
  (m <=? n)%nat && (substring (n - m) m s =? suffix)%string.

(** [s[:stop]], for a negative or non-negative [stop]. *)
Definition slice_to (stop : Z) (s : string) : string :=
  let n := Z.of_nat (String.length s) in
  let stop' := if stop <? 0 then Z.max 0 (n + stop) else stop in
  substring 0 (Z.to_nat stop') s.

(** ** The regular expression behind [strptime]

    [_strptime] turns the format into a regular expression, one named
    group per directive, compiled with [IGNORECASE].  Every group used by
    ["%Y-%m-%dT%H:%M:%S"] is an alternation of sequences of one-character
    classes. *)

Definition char_class := ascii -> bool.

(** [[lo-hi]] *)
Definition in_range (lo hi : ascii) : char_class :=
  fun c => ((N_of_ascii lo <=? N_of_ascii c) && (N_of_ascii c <=? N_of_ascii hi))%N.

(** [\d] *)
Definition digit : char_class := in_range "0" "9".

(** A literal character. *)
Definition lit (a : ascii) : char_class := fun c => Ascii.eqb c a.

(** A literal letter under [IGNORECASE]. *)
Definition lit_nocase (upper lower : ascii) : char_class :=
  fun c => Ascii.eqb c upper || Ascii.eqb c lower.

(** One branch of an alternation: the matched text and what follows it. *)
Fixpoint match_seq (cs : list char_class) (s : string) : option (string * string) :=
  match cs with
  | nil => Some ("", s)
  | (p :: cs')%list =>
      match s with
      | String c s' =>
          if p c then
            match match_seq cs' s' with
            | Some (m, r) => Some (String c m, r)
            | None => None
            end
          else None
      | EmptyString => None
      end
  end.

(** A group: the ways it can match at the head of [s], in the order the
    backtracking matcher tries them. *)
Fixpoint match_group (alts : list (list char_class)) (s : string)
  : list (string * string) :=
  match alts with
  | nil => nil
  | (a :: alts')%list =>
      match match_seq a s with
      | Some x => (x :: match_group alts' s)%list
      | None => match_group alts' s
      end
  end.

Definition match_lit (p : char_class) (s : string) : list string :=
  match s with
  | String c s' => if p c then [s']%list else nil
  | EmptyString => nil
  end.

(** The directive table of [TimeRE]. *)
Definition re_Y : list (list char_class) :=
  [[digit; digit; digit; digit]]%list.
Definition re_m : list (list char_class) :=
  [[lit "1"; in_range "0" "2"]; [lit "0"; in_range "1" "9"]; [in_range "1" "9"]]%list.
Definition re_d : list (list char_class) :=
  [[lit "3"; in_range "0" "1"]; [in_range "1" "2"; digit];
   [lit "0"; in_range "1" "9"]; [in_range "1" "9"]; [lit " "; in_range "1" "9"]]%list.
Definition re_H : list (list char_class) :=
  [[lit "2"; in_range "0" "3"]; [in_range "0" "1"; digit]; [digit]]%list.
Definition re_M : list (list char_class) :=
  [[in_range "0" "5"; digit]; [digit]]%list.
Definition re_S : list (list char_class) :=
  [[lit "6"; in_range "0" "1"]; [in_range "0" "5"; digit]; [digit]]%list.

(** The text of the six groups of a match. *)
Record groups := mk_groups {
  g_Y : string; g_m : string; g_d : string;
  g_H : string; g_M : string; g_S : string
}.

(** All matches of the regular expression of ["%Y-%m-%dT%H:%M:%S"] at the
    head of [s], in backtracking order, each with the unmatched rest. *)
Definition match_format (s : string) : list (groups * string) :=
  flat_map (fun '(tY, s) =>
  flat_map (fun s =>
  flat_map (fun '(tm, s) =>
  flat_map (fun s =>
  flat_map (fun '(td, s) =>
  flat_map (fun s =>
  flat_map (fun '(tH, s) =>
  flat_map (fun s =>
  flat_map (fun '(tM, s) =>
  flat_map (fun s =>
  map (fun '(tS, s) => (mk_groups tY tm td tH tM tS, s))
    (match_group re_S s))
    (match_lit (lit ":") s))
    (match_group re_M s))
    (match_lit (lit ":") s))
    (match_group re_H s))
    (match_lit (lit_nocase "T" "t") s))
    (match_group re_d s))
    (match_lit (lit "-") s))
    (match_group re_m s))
    (match_lit (lit "-") s))
    (match_group re_Y s).

(** [format_regex.match(data_string)]: the first match, if any. *)
Definition re_match (s : string) : option (groups * string) :=
  hd_error (match_format s).

(** ** [int] of a group *)

Definition digit_value (c : ascii) : Z := Z.of_N (N_of_ascii c) - 48.

Fixpoint int_digits (acc : Z) (s : string) : Z :=
  match s with
  | EmptyString => acc
  | String c s' => int_digits (10 * acc + digit_value c) s'
  end.

Fixpoint skip_spaces (s : string) : string :=
  match s with
  | String c s' => if Ascii.eqb c " " then skip_spaces s' else s
  | EmptyString => s
  end.

(** [int(text)] for the text of a group: decimal digits, after blanks that
    [int] ignores. *)
Definition int (text : string) : Z := int_digits 0 (skip_spaces text).

(** ** [datetime.strptime(data_string, "%Y-%m-%dT%H:%M:%S")]

    No match, unconverted data after the match, a date that does not exist
    (raised when [_strptime] builds the date to number the day of the year)
    and fields the constructor refuses all raise [ValueError]. *)
Definition strptime (data_string : string) : result datetime :=
  match re_match data_string with
  | None => Raise ValueError
  | Some (found, rest) =>
      if negb (rest =? "")%string then Raise ValueError
      else
        let year := int (g_Y found) in
        let month := int (g_m found) in
        let day := int (g_d found) in
        let hour := int (g_H found) in
        let minute := int (g_M found) in
        let second := int (g_S found) in
        _ <- check_date_fields year month day ;;
        datetime_new year month day hour minute second 0 None
  end.

(** ** [parse_as_local] *)

Definition parse_as_local (dt_str : string) : result datetime :=
  let dt_str := if endswith dt_str "Z" then slice_to (-1) dt_str else dt_str in
  let dt_str := if (19 <? String.length dt_str)%nat then slice_to 19 dt_str
                else dt_str in
  naive <- strptime dt_str ;;
  Ok (replace_tzinfo naive LOCAL_TZ).

(** ** [datetime.isoformat]

    The UTC offset of a zone at a wall-clock time comes from the time-zone
    database; it is a parameter, in seconds. *)

Definition digit_char (d : Z) : ascii := ascii_of_N (Z.to_N (48 + d)).

(** ["%0<width>d" % n] for [0 <= n < 10 ^ width]. *)
Fixpoint zero_pad (width : nat) (n : Z) : string :=
  match width with
  | O => ""
  | S w => zero_pad w (n / 10) ++ String (digit_char (n mod 10)) ""
  end.

(** [_format_offset] for an offset of whole seconds. *)
Definition format_offset (off : Z) : string :=
  let sign := if off <? 0 then "-" else "+" in
  let off := Z.abs off in
  let hh := off / 3600 in
  let mm := (off mod 3600) / 60 in
  let ss := off mod 60 in
  sign ++ zero_pad 2 hh ++ ":" ++ zero_pad 2 mm
       ++ (if ss =? 0 then "" else ":" ++ zero_pad 2 ss).

Section Isoformat.

Variable utcoffset : tzinfo -> datetime -> Z.

Definition isoformat (dt : datetime) : string :=
  zero_pad 4 (year dt) ++ "-" ++ zero_pad 2 (month dt) ++ "-"
    ++ zero_pad 2 (day dt) ++ "T"
    ++ zero_pad 2 (hour dt) ++ ":" ++ zero_pad 2 (minute dt) ++ ":"
    ++ zero_pad 2 (second dt)
    ++ (if microsecond dt =? 0 then "" else "." ++ zero_pad 6 (microsecond dt))
    ++ match tz dt with
       | Some z => format_offset (utcoffset z dt)
       | None => ""
       end.

End Isoformat.

(** ** Shorthands of the proofs *)

(** The first element of a list. *)
Definition heads_with {A : Type} (l : list A) (x : A) : Prop :=
  exists tl, l = (x :: tl)%list.

(** A number between 0 and 9. *)
Definition digit_val (k : Z) : Prop := 0 <= k <= 9.

(** Text made of the digits given by value. *)
Definition two_digits (a b : Z) : string :=
  String (digit_char a) (String (digit_char b) "").

Definition four_digits (a b c d : Z) : string :=
  String (digit_char a) (String (digit_char b)
    (String (digit_char c) (String (digit_char d) ""))).

(** ** Vocabulary of the statements *)

(** What [parse_as_local] hands to [strptime]: the input without a trailing
    ['Z'], cut to 19 characters. *)
Definition cleaned (dt_str : string) : string :=
  let dt_str := if endswith dt_str "Z" then slice_to (-1) dt_str else dt_str in
  if (19 <? String.length dt_str)%nat then slice_to 19 dt_str else dt_str.

(** The wall-clock pattern [YYYY-MM-DDTHH:MM:SS] as the specification
    writes it: nineteen characters, digits where the letters stand, the
    separators as written.  The fields read off are returned. *)
Definition wall_clock_fields (s : string) : option (Z * Z * Z * Z * Z * Z) :=
  match list_ascii_of_string s with
  | [y1; y2; y3; y4; p1; m1; m2; p2; d1; d2; t; h1; h2; q1; n1; n2; q2; s1; s2]%list =>
      if forallb digit [y1; y2; y3; y4; m1; m2; d1; d2; h1; h2; n1; n2; s1; s2]
         && Ascii.eqb p1 "-" && Ascii.eqb p2 "-" && Ascii.eqb t "T"
         && Ascii.eqb q1 ":" && Ascii.eqb q2 ":"
      then Some (int_digits 0 (string_of_list_ascii [y1; y2; y3; y4]),
                 int_digits 0 (string_of_list_ascii [m1; m2]),
                 int_digits 0 (string_of_list_ascii [d1; d2]),
                 int_digits 0 (string_of_list_ascii [h1; h2]),
                 int_digits 0 (string_of_list_ascii [n1; n2]),
                 int_digits 0 (string_of_list_ascii [s1; s2]))
      else None
  | _ => None
  end.

(** A string matches the wall-clock pattern when it has that shape and its
    fields name a date that exists and a time of day. *)
Definition wall_clock_pattern (s : string) : bool :=
  match wall_clock_fields s with
  | Some (y, m, d, h, mi, sec) =>
      match datetime_new y m d h mi sec 0 None with
      | Ok _ => true
      | Raise _ => false
      end
  | None => false
  end.

(** ** What [strptime] reads, stated without the matcher

    A field that may drop its leading zero is written with two digits or
    with one. *)
Inductive field_text (v : Z) : string -> Prop :=
| field_padded a b :
    digit_val a -> digit_val b -> v = 10 * a + b ->
    field_text v (two_digits a b)
| field_bare :
    digit_val v -> field_text v (String (digit_char v) "").

(** The day may also be one digit after a blank. *)
Inductive day_text (v : Z) : string -> Prop :=
| day_field t : field_text v t -> day_text v t
| day_blank : digit_val v -> day_text v (String " " (String (digit_char v) "")).

(** The year takes four digits. *)
Inductive year_text (v : Z) : string -> Prop :=
| year_digits a b c d :
    digit_val a -> digit_val b -> digit_val c -> digit_val d ->
    v = 1000 * a + 100 * b + 10 * c + d ->
    year_text v (four_digits a b c d).

(** [t] writes the naive datetime [dt]: year, month, day, ['T'] or ['t'],
    hour, minute, second, separated as in YYYY-MM-DDTHH:MM:SS, the fields
    naming a date that exists and a time of day. *)
Definition wall_clock_text (t : string) (dt : datetime) : Prop :=
  exists tY tm td sep tH tM tS,
    t = tY ++ "-" ++ tm ++ "-" ++ td ++ String sep (tH ++ ":" ++ tM ++ ":" ++ tS) /\
    year_text (year dt) tY /\ field_text (month dt) tm /\ day_text (day dt) td /\
    (sep = "T"%char \/ sep = "t"%char) /\
    field_text (hour dt) tH /\ field_text (minute dt) tM /\
    field_text (second dt) tS /\
    check_date_fields (year dt) (month dt) (day dt) = Ok tt /\
    check_time_fields (hour dt) (minute dt) (second dt) 0 = Ok tt /\
    microsecond dt = 0 /\ tz dt = None.

(** A class that only holds digits. *)
Definition digit_class (p : char_class) : Prop :=
  forall c, p c = true -> digit c = true.

End Main.

Module SlotTerms.
Import CalendarBackend.

(** The instant [t] lies in the slot. *)
Definition inside (t : instant) (sl : slot) : Prop :=
  slot_start sl <= t < slot_end sl.

(** A returned slot once booked: the busy interval it becomes. *)
Definition as_busy (sl : slot) : interval := (slot_start sl, slot_end sl).

(** The instants slots are counted from: the start of the window and the
    ends of the busy intervals. *)
Definition anchor (day_start : instant) (busy : list interval) (a : instant) : Prop :=
  a = day_start \/ exists b, In b busy /\ a = snd b.

(** Two lists of busy intervals that differ only in the order of intervals
    with the same start (each with [start <= end]). *)
Inductive tie_equiv : list interval -> list interval -> Prop :=
| tie_refl (l : list interval) : tie_equiv l l
| tie_swap (a b : interval) (l : list interval) :
    fst a = fst b -> fst a <= snd a -> fst b <= snd b ->
    tie_equiv (a :: b :: l) (b :: a :: l)
| tie_cons (a : interval) (l l' : list interval) :
    tie_equiv l l' -> tie_equiv (a :: l) (a :: l')
| tie_trans (l1 l2 l3 : list interval) :
    tie_equiv l1 l2 -> tie_equiv l2 l3 -> tie_equiv l1 l3.

End SlotTerms.

Module Booking.
Import Main.

Open Scope string_scope.

(** ** What the booking path raises

    [ValueError] comes from [parse_as_local], [KeyError] from [event["id"]],
    [HttpError] stands for whatever the provider call raises. *)
Inductive exception :=
| BadTimestamp (e : exn)
| KeyError (key : string)
| HttpError (reason : string).

Inductive outcome (A : Type) : Type :=
| Done (a : A)
| Failed (e : exception).
Arguments Done {A} a.
Arguments Failed {A} e.

(** A dict with string values, as the fields read from the provider's
    answer are. *)
Definition dict := list (string * string).

(** [d.get(key)]; [d[key]] raises [KeyError] where this gives [None]. *)
Fixpoint dict_get (key : string) (d : dict) : option string :=
  match d with
  | nil => None
  | ((k, v) :: d')%list => if (k =? key)%string then Some v else dict_get key d'
  end.

(** [BookEventRequest] *)
Record BookEventRequest := mk_request {
  start : string;
  end_ : string;
  summary : string;
  description : string
}.

(** [event_body]: the two nested dicts hold one [dateTime] each. *)
Record event_body := mk_body {
  body_summary : string;
  body_description : string;
  body_start : string;
  body_end : string
}.

(** The dict [book_event] returns, and the envelope [book] returns. *)
Record booked := mk_booked { id : string; htmlLink : option string }.
Record confirmation := mk_confirmation { status : string; event : booked }.

Section Service.

(** The calendar kept by the provider, its [events().insert(...).execute()]
    (the answer is an error or the created event) and the UTC offset of a
    zone at a wall-clock time. *)
Variable calendar : Type.
Variable insert : event_body -> calendar -> (string + dict) * calendar.
Variable utcoffset : tzinfo -> datetime -> Z.

Definition book_event (start_iso end_iso summary description : string)
           (cal : calendar) : outcome booked * calendar :=
  let body := mk_body summary description start_iso end_iso in
  match insert body cal with
  | (inl reason, cal') => (Failed (HttpError reason), cal')
  | (inr event, cal') =>
      match dict_get "id" event with
      | None => (Failed (KeyError "id"), cal')
      | Some i => (Done (mk_booked i (dict_get "htmlLink" event)), cal')
      end
  end.

Definition book (req : BookEventRequest) (cal : calendar)
  : outcome confirmation * calendar :=
  match parse_as_local (start req) with
  | Raise e => (Failed (BadTimestamp e), cal)
  | Ok start_local =>
      match parse_as_local (end_ req) with
      | Raise e => (Failed (BadTimestamp e), cal)
      | Ok end_local =>
          let start_iso := isoformat utcoffset start_local in
          let end_iso := isoformat utcoffset end_local in
          match book_event start_iso end_iso (summary req) (description req) cal with
          | (Failed e, cal') => (Failed e, cal')
          | (Done result, cal') => (Done (mk_confirmation "confirmed" result), cal')
          end
      end
  end.

End Service.

End Booking.

Module Availability.
Import Main.

Open Scope string_scope.
Open Scope Z_scope.

(** ["T" in raw] *)
Fixpoint contains_char (c : ascii) (s : string) : bool :=
  match s with
  | EmptyString => false
  | String a s' => Ascii.eqb a c || contains_char c s'
  end.


(** [raw.replace("Z", "+00:00")] *)
Fixpoint replace_Z (s : string) : string :=
  match s with
  | EmptyString => ""
  | String a s' => if Ascii.eqb a "Z" then "+00:00" ++ replace_Z s'
                   else String a (replace_Z s')
  end.

(** All matches of the regular expression of ["%Y-%m-%d"] at the head of
    [s], in backtracking order, each with the unmatched rest. *)
Definition match_format_date (s : string)
  : list ((string * string * string) * string) :=
  flat_map (fun '(tY, s) =>
  flat_map (fun s =>
  flat_map (fun '(tm, s) =>
  flat_map (fun s =>
  map (fun '(td, s) => ((tY, tm, td), s))
    (match_group re_d s))
    (match_lit (lit "-") s))
    (match_group re_m s))
    (match_lit (lit "-") s))
    (match_group re_Y s).

(** [datetime.strptime(data_string, "%Y-%m-%d")]: the time of day is left
    at its default, midnight. *)
Definition strptime_date (data_string : string) : result datetime :=
  match hd_error (match_format_date data_string) with
  | None => Raise ValueError
  | Some ((tY, tm, td), rest) =>
      if negb (rest =? "")%string then Raise ValueError
      else
        let year := int tY in
        let month := int tm in
        let day := int td in
        _ <- check_date_fields year month day ;;
        datetime_new year month day 0 0 0 0 None
  end.

Section CheckAvailability.

(** [datetime.fromisoformat] and [datetime.astimezone] are not modelled. *)
Variable fromisoformat : string -> result datetime.
Variable astimezone : datetime -> tzinfo -> datetime.

(** The value of [dt] in [check_availability], from [req.date]. *)
Definition check_availability_dt (raw : string) : result datetime :=
  if contains_char "T" raw then
    dt <- fromisoformat (replace_Z raw) ;;
    match tz dt with
    | None => Ok (replace_tzinfo dt LOCAL_TZ)
    | Some _ => Ok (astimezone dt LOCAL_TZ)
    end
  else
    naive <- strptime_date raw ;;
    Ok (replace_tzinfo naive LOCAL_TZ).

End CheckAvailability.

(** [t] writes the date of the naive datetime [dt], whose time of day is
    midnight: year, month and day as [strptime] reads them, separated by
    ['-']. *)
Definition date_text (t : string) (dt : datetime) : Prop :=
  exists tY tm td,
    t = tY ++ "-" ++ tm ++ "-" ++ td /\
    year_text (year dt) tY /\ field_text (month dt) tm /\ day_text (day dt) td /\
    check_date_fields (year dt) (month dt) (day dt) = Ok tt /\
    hour dt = 0 /\ minute dt = 0 /\ second dt = 0 /\ microsecond dt = 0 /\
    tz dt = None.

(** ** The work window of [find_free_slots] *)

(** [dt.replace(hour=h, minute=0, second=0, microsecond=0)] builds a new
    datetime, whose fields are checked. *)
Definition replace_hour (dt : datetime) (h : Z) : result datetime :=
  datetime_new (year dt) (month dt) (day dt) h 0 0 0 (tz dt).

(** [day_start] and [day_end]. *)
Definition day_window (date_local : datetime) (work_start_hour work_end_hour : Z)
  : result (datetime * datetime) :=
  day_start <- replace_hour date_local work_start_hour ;;
  day_end <- replace_hour date_local work_end_hour ;;
  Ok (day_start, day_end).

(** Comparison of tuples of numbers, as Python orders them. *)
Fixpoint tuple_compare (a b : list Z) : comparison :=
  match a, b with
  | nil, nil => Eq
  | nil, _ => Lt
  | _, nil => Gt
  | (x :: a')%list, (y :: b')%list =>
      match x ?= y with
      | Eq => tuple_compare a' b'
      | c => c
      end
  end.

(** Comparison of two datetimes that carry the same [tzinfo]: their fields
    are compared as tuples. *)
Definition datetime_compare (a b : datetime) : comparison :=
  tuple_compare
    [year a; month a; day a; hour a; minute a; second a; microsecond a]%list
    [year b; month b; day b; hour b; minute b; second b; microsecond b]%list.

End Availability.

(* ================================================================= *)
(** * Part II: the slot computation *)
(* ================================================================= *)

Module SlotFacts.
Import CalendarBackend.

(** ** The sort *)

Lemma insert_by_start_perm b l : Permutation (b :: l) (insert_by_start b l).
Proof.
  induction l as [|c l IH]; simpl.
  - apply Permutation_refl.
  - destruct (fst b <=? fst c).
    + apply Permutation_refl.
    + eapply Permutation_trans; [apply perm_swap|].
      apply perm_skip, IH.
Qed.

Lemma sort_by_start_perm l : Permutation l (sort_by_start l).
Proof.
  induction l as [|b l IH]; simpl.
  - apply perm_nil.
  - eapply Permutation_trans; [apply perm_skip, IH|].
    apply insert_by_start_perm.
Qed.

Lemma insert_by_start_sorted b l :
  StronglySorted start_le l -> StronglySorted start_le (insert_by_start b l).
Proof.
  induction 1 as [|c l Hl IH Hc]; simpl.
  - repeat constructor.
  - destruct (Z.leb_spec (fst b) (fst c)) as [Hle|Hgt].
    + constructor; [constructor; assumption|].
      constructor; [exact Hle|].
      eapply Forall_impl; [|exact Hc].
      unfold start_le; intros; lia.
    + constructor; [exact IH|].
      eapply Permutation_Forall; [apply insert_by_start_perm|].
      constructor; [unfold start_le; lia | exact Hc].
Qed.

Lemma sort_by_start_sorted l : StronglySorted start_le (sort_by_start l).
Proof.
  induction l as [|b l IH]; simpl.
  - constructor.
  - apply insert_by_start_sorted, IH.
Qed.

Lemma in_sort_by_start b l : In b l <-> In b (sort_by_start l).
Proof.
  split; apply Permutation_in;
    [|apply Permutation_sym]; apply sort_by_start_perm.
Qed.

Lemma Forall_sort_by_start (P : interval -> Prop) l :
  Forall P l -> Forall P (sort_by_start l).
Proof. apply Permutation_Forall, sort_by_start_perm. Qed.

(** ** Runs of back-to-back slots *)

Lemma in_tiles D n : forall s sl,
  In sl (tiles s D n) ->
  exists i, 0 <= i < Z.of_nat n /\ slot_start sl = s + i * D
            /\ slot_end sl = slot_start sl + D.
Proof.
  induction n as [|n IH]; intros s sl Hin; simpl in Hin; [contradiction|].
  destruct Hin as [<-|Hin].
  - exists 0; simpl; lia.
  - destruct (IH _ _ Hin) as (i & Hi & Hs & He).
    exists (i + 1); lia.
Qed.


Lemma gap_count_step D s lim :
  0 < D -> s + D <= lim -> gap_count D s lim = S (gap_count D (s + D) lim).
Proof.
  intros HD Hle; unfold gap_count.
  replace (lim - s) with ((lim - (s + D)) + 1 * D) by ring.
  rewrite Z.div_add by lia.
  assert (0 <= (lim - (s + D)) / D) by (apply Z.div_pos; lia).
  lia.
Qed.

Lemma gap_count_zero D s lim :
  0 < D -> lim < s + D -> gap_count D s lim = 0%nat.
Proof.
  intros HD Hlt; unfold gap_count.
  assert ((lim - s) / D < 1) by (apply Z.div_lt_upper_bound; lia).
  lia.
Qed.

Lemma in_gap_slots D lo hi sl :
  0 < D -> In sl (gap_slots D lo hi) ->
  lo <= slot_start sl /\ slot_end sl = slot_start sl + D /\ slot_end sl <= hi.
Proof.
  intros HD Hin; unfold gap_slots, gap_count in Hin.
  destruct (in_tiles _ _ _ _ Hin) as (i & Hi & Hs & He).
  pose proof (Z.mul_div_le (hi - lo) D HD).
  assert (0 < (hi - lo) / D) by lia.
  nia.
Qed.

Lemma tiles_sorted D n : 0 < D -> forall s, chronological (tiles s D n).
Proof.
  intros HD; induction n as [|n IH]; intros s; simpl.
  - constructor.
  - constructor; [apply IH|].
    apply Forall_forall; intros sl Hin.
    destruct (in_tiles _ _ _ _ Hin) as (i & Hi & Hs & He).
    unfold before; simpl; nia.
Qed.

Lemma sorted_app (l1 l2 : list slot) :
  chronological l1 -> chronological l2 ->
  (forall a b, In a l1 -> In b l2 -> before a b) ->
  chronological (l1 ++ l2).
Proof.
  unfold chronological; induction 1 as [|a l1 Hl1 IH Ha]; intros H2 Hx; simpl.
  - exact H2.
  - constructor.
    + apply IH; [exact H2|]. intros; apply Hx; simpl; auto.
    + apply Forall_app; split; [exact Ha|].
      apply Forall_forall; intros b Hb; apply Hx; simpl; auto.
Qed.

(** ** The [while] loop *)

(** With a positive step the loop emits exactly the slots that fit and
    needs one more evaluation of its condition than it emits slots. *)
Lemma emit_slots_run d lim :
  0 < timedelta_minutes d ->
  forall fuel s acc,
    emit_slots fuel d lim s acc =
    if (gap_count (timedelta_minutes d) s lim <? fuel)%nat
    then Some (s + Z.of_nat (gap_count (timedelta_minutes d) s lim)
                   * timedelta_minutes d,
               acc ++ gap_slots (timedelta_minutes d) s lim)
    else None.
Proof.
  intros HD; set (D := timedelta_minutes d) in *.
  induction fuel as [|fuel IH]; intros s acc; simpl.
  - destruct (Nat.ltb_spec (gap_count D s lim) 0); [lia|reflexivity].
  - fold D. destruct (Z.leb_spec (s + D) lim) as [Hle|Hgt].
    + rewrite IH. unfold gap_slots.
      rewrite (gap_count_step D s lim HD Hle).
      change (S (gap_count D (s + D) lim) <? S fuel)%nat
        with (gap_count D (s + D) lim <? fuel)%nat.
      destruct (gap_count D (s + D) lim <? fuel)%nat; [|reflexivity].
      cbn [tiles]. rewrite <- app_assoc. cbn [app]. do 2 f_equal. lia.
    + unfold gap_slots. rewrite (gap_count_zero D s lim HD Hgt). cbn [tiles].
      rewrite app_nil_r. change (0 <? S fuel)%nat with true.
      change (Z.of_nat 0) with 0. rewrite Z.mul_0_l, Z.add_0_r. reflexivity.
Qed.

(** With a step that is zero or negative the loop condition, once true,
    stays true. *)
Lemma emit_slots_stuck d lim :
  timedelta_minutes d <= 0 ->
  forall fuel s acc,
    emit_slots fuel d lim s acc =
    if (0 <? fuel)%nat && (lim <? s + timedelta_minutes d)
    then Some (s, acc) else None.
Proof.
  intros HD; set (D := timedelta_minutes d) in *.
  induction fuel as [|fuel IH]; intros s acc; simpl; [reflexivity|].
  fold D. destruct (Z.leb_spec (s + D) lim) as [Hle|Hgt].
  - rewrite IH.
    destruct (Z.ltb_spec lim (s + D + D)); [lia|].
    destruct (Z.ltb_spec lim (s + D)); [lia|].
    rewrite andb_false_r. reflexivity.
  - destruct (Z.ltb_spec lim (s + D)); [reflexivity|lia].
Qed.

(** ** The [for] loop *)

Lemma scan_busy_run d :
  0 < timedelta_minutes d ->
  forall busy fuel c acc r,
    scan_busy fuel d busy c acc = Some r ->
    r = (snd (sweep (timedelta_minutes d) busy c),
         acc ++ fst (sweep (timedelta_minutes d) busy c)).
Proof.
  intros HD; induction busy as [|[bs be] rest IH]; intros fuel c acc r; simpl.
  - intros [= <-]. rewrite app_nil_r. reflexivity.
  - destruct (sweep (timedelta_minutes d) rest (Z.max c be)) as [l c'] eqn:Hsw.
    destruct (bs >? c).
    + rewrite (emit_slots_run d bs HD).
      destruct (_ <? fuel)%nat; [|discriminate].
      intros Hr. apply IH in Hr. rewrite Hsw in Hr. simpl in *.
      rewrite Hr, app_assoc. reflexivity.
    + intros Hr. apply IH in Hr. rewrite Hsw in Hr. simpl in *. exact Hr.
Qed.

Lemma scan_busy_enough d :
  0 < timedelta_minutes d ->
  forall busy c, exists fuel0, forall fuel acc,
    (fuel0 <= fuel)%nat ->
    scan_busy fuel d busy c acc =
    Some (snd (sweep (timedelta_minutes d) busy c),
          acc ++ fst (sweep (timedelta_minutes d) busy c)).
Proof.
  intros HD; induction busy as [|[bs be] rest IH]; intros c.
  - exists 0%nat; intros; simpl. rewrite app_nil_r. reflexivity.
  - destruct (IH (Z.max c be)) as [f1 Hf1].
    exists (Nat.max f1 (S (gap_count (timedelta_minutes d) c bs))).
    intros fuel acc Hfuel; simpl.
    destruct (sweep (timedelta_minutes d) rest (Z.max c be)) as [l c'] eqn:Hsw.
    destruct (bs >? c).
    + rewrite (emit_slots_run d bs HD).
      destruct (Nat.ltb_spec (gap_count (timedelta_minutes d) c bs) fuel); [|lia].
      rewrite Hf1 by lia. simpl. rewrite app_assoc. reflexivity.
    + rewrite Hf1 by lia. simpl. reflexivity.
Qed.

Lemma scan_busy_stuck d :
  timedelta_minutes d <= 0 ->
  forall busy fuel c acc,
    scan_busy fuel d busy c acc =
    match quiet_cursor busy c with
    | Some c' => Some (c', acc)
    | None => None
    end.
Proof.
  intros HD; induction busy as [|[bs be] rest IH]; intros fuel c acc; simpl.
  - reflexivity.
  - destruct (Z.gtb_spec bs c) as [Hgt|Hle].
    + rewrite (emit_slots_stuck d bs HD).
      destruct (Z.ltb_spec bs (c + timedelta_minutes d)); [lia|].
      rewrite andb_false_r. reflexivity.
    + apply IH.
Qed.



(** ** What the [for] loop leaves behind *)

Lemma sweep_bounds D :
  0 < D ->
  forall busy c l c',
    sweep D busy c = (l, c') ->
    c <= c' /\ (forall b, In b busy -> snd b <= c') /\
    (forall sl, In sl l -> c <= slot_start sl /\ slot_end sl = slot_start sl + D).
Proof.
  intros HD; induction busy as [|[bs be] rest IH]; intros c l c'; simpl.
  - intros [= <- <-]. repeat split; try lia; contradiction.
  - destruct (sweep D rest (Z.max c be)) as [l0 c0] eqn:Hsw. intros [= <- <-].
    destruct (IH _ _ _ Hsw) as (Hc & Hb & Hs).
    split; [lia|]. split.
    + intros b [<-|Hin]; simpl; [lia|auto].
    + intros sl Hin. apply in_app_or in Hin as [Hin|Hin].
      * destruct (bs >? c); [|contradiction].
        apply (in_gap_slots D c bs sl HD) in Hin. lia.
      * apply Hs in Hin. lia.
Qed.

Lemma sweep_avoids D :
  0 < D ->
  forall busy c l c',
    StronglySorted start_le busy ->
    sweep D busy c = (l, c') ->
    forall sl b, In sl l -> In b busy -> ~ overlaps sl b.
Proof.
  intros HD; induction busy as [|[bs be] rest IH]; intros c l c' Hsorted; simpl.
  - intros _ sl b _ [].
  - inversion Hsorted as [|? ? Hrest Hfirst]; subst.
    destruct (sweep D rest (Z.max c be)) as [l0 c0] eqn:Hsw. intros [= <- <-].
    destruct (sweep_bounds D HD _ _ _ _ Hsw) as (Hc & Hb & Hs).
    intros sl b Hsl Hin; unfold overlaps.
    apply in_app_or in Hsl as [Hsl|Hsl].
    + destruct (bs >? c); [|contradiction].
      apply (in_gap_slots D c bs sl HD) in Hsl.
      destruct Hin as [<-|Hin]; simpl; [lia|].
      rewrite Forall_forall in Hfirst. apply Hfirst in Hin.
      unfold start_le in Hin; simpl in Hin. lia.
    + destruct Hin as [<-|Hin]; simpl.
      * apply Hs in Hsl. lia.
      * exact (IH _ _ _ Hrest Hsw sl b Hsl Hin).
Qed.

Lemma sweep_below D hi :
  0 < D ->
  forall busy c l c',
    Forall (fun b => fst b <= hi) busy ->
    sweep D busy c = (l, c') ->
    forall sl, In sl l -> slot_end sl <= hi.
Proof.
  intros HD; induction busy as [|[bs be] rest IH]; intros c l c' Hall; simpl.
  - intros [= <- <-] sl [].
  - inversion Hall as [|? ? Hb Hrest]; subst; simpl in Hb.
    destruct (sweep D rest (Z.max c be)) as [l0 c0] eqn:Hsw. intros [= <- <-].
    intros sl Hsl. apply in_app_or in Hsl as [Hsl|Hsl].
    + destruct (bs >? c); [|contradiction].
      apply (in_gap_slots D c bs sl HD) in Hsl. lia.
    + exact (IH _ _ _ Hrest Hsw sl Hsl).
Qed.

Lemma sweep_chronological D :
  0 < D ->
  forall busy c l c',
    Forall (fun b => fst b <= snd b) busy ->
    sweep D busy c = (l, c') ->
    chronological l /\ forall sl, In sl l -> slot_end sl <= c'.
Proof.
  intros HD; induction busy as [|[bs be] rest IH]; intros c l c' Hall; simpl.
  - intros [= <- <-]. split; [constructor|intros sl []].
  - inversion Hall as [|? ? Hb Hrest]; subst; simpl in Hb.
    destruct (sweep D rest (Z.max c be)) as [l0 c0] eqn:Hsw. intros [= <- <-].
    destruct (IH _ _ _ Hrest Hsw) as (Hchr & Hend).
    destruct (sweep_bounds D HD _ _ _ _ Hsw) as (Hc & _ & Hs).
    assert (Hgap : forall sl,
               In sl (if bs >? c then gap_slots D c bs else []) ->
               slot_end sl = slot_start sl + D /\ slot_end sl <= bs).
    { intros sl Hsl. destruct (bs >? c); [|contradiction].
      apply (in_gap_slots D c bs sl HD) in Hsl. lia. }
    split.
    + apply sorted_app.
      * destruct (bs >? c); [apply tiles_sorted, HD|constructor].
      * exact Hchr.
      * intros a b Ha Hb'. apply Hgap in Ha. apply Hs in Hb'.
        unfold before. lia.
    + intros sl Hsl. apply in_app_or in Hsl as [Hsl|Hsl].
      * apply Hgap in Hsl. lia.
      * auto.
Qed.

(** ** The whole function *)

Lemma find_free_slots_run fuel day_start day_end busy d slots :
  0 < d ->
  find_free_slots fuel day_start day_end busy d = Some slots ->
  slots = free_slots_of (timedelta_minutes d) day_start day_end busy.
Proof.
  intros Hd. assert (HD : 0 < timedelta_minutes d) by (unfold timedelta_minutes; lia).
  unfold find_free_slots, free_slots_of.
  destruct (scan_busy fuel d (sort_by_start busy) day_start []) as [[c l]|] eqn:Hscan;
    [|discriminate].
  apply (scan_busy_run d HD) in Hscan.
  destruct (sweep (timedelta_minutes d) (sort_by_start busy) day_start) as [l0 c0].
  simpl in Hscan. injection Hscan as -> ->.
  rewrite (emit_slots_run d day_end HD).
  destruct (_ <? fuel)%nat; [|discriminate].
  intros [= <-]. reflexivity.
Qed.

Lemma find_free_slots_enough day_start day_end busy d :
  0 < d ->
  exists fuel0, forall fuel, (fuel0 <= fuel)%nat ->
    find_free_slots fuel day_start day_end busy d =
    Some (free_slots_of (timedelta_minutes d) day_start day_end busy).
Proof.
  intros Hd. assert (HD : 0 < timedelta_minutes d) by (unfold timedelta_minutes; lia).
  destruct (scan_busy_enough d HD (sort_by_start busy) day_start) as [f1 Hf1].
  unfold find_free_slots, free_slots_of.
  destruct (sweep (timedelta_minutes d) (sort_by_start busy) day_start) as [l0 c0].
  simpl in Hf1.
  exists (Nat.max f1 (S (gap_count (timedelta_minutes d) c0 day_end))).
  intros fuel Hfuel. rewrite Hf1 by lia.
  rewrite (emit_slots_run d day_end HD).
  destruct (Nat.ltb_spec (gap_count (timedelta_minutes d) c0 day_end) fuel); [|lia].
  reflexivity.
Qed.


Lemma find_free_slots_stuck fuel day_start day_end busy d :
  d <= 0 ->
  find_free_slots fuel day_start day_end busy d =
  match quiet_cursor (sort_by_start busy) day_start with
  | Some c =>
      if (0 <? fuel)%nat && (day_end <? c + timedelta_minutes d)
      then Some [] else None
  | None => None
  end.
Proof.
  intros Hd. assert (HD : timedelta_minutes d <= 0) by (unfold timedelta_minutes; lia).
  unfold find_free_slots. rewrite (scan_busy_stuck d HD).
  destruct (quiet_cursor (sort_by_start busy) day_start) as [c|]; [|reflexivity].
  rewrite (emit_slots_stuck d day_end HD).
  destruct (_ && _); reflexivity.
Qed.

Lemma nth_error_tiles D n : forall s i,
  (i < n)%nat ->
  nth_error (tiles s D n) i =
  Some (mk_slot (s + Z.of_nat i * D) (s + (Z.of_nat i + 1) * D)).
Proof.
  induction n as [|n IH]; intros s i Hi; [lia|].
  destruct i as [|i]; cbn [tiles nth_error].
  - do 2 f_equal; lia.
  - rewrite IH by lia. do 2 f_equal; lia.
Qed.

Lemma timedelta_minutes_pos d : 0 < d -> 0 < timedelta_minutes d.
Proof. unfold timedelta_minutes; lia. Qed.

(** ** The claims about [find_free_slots] *)













(** C6, as stated, fails: nothing validates [duration_minutes].  With a
    9:00-17:00 window covered by one busy interval 8:00-18:00, a duration of
    0 and a duration of -30 both make [find_free_slots] return a slot list,
    the empty one. *)
Lemma find_free_slots_nonpositive_counterexample :
  0 <= 0 /\ -30 <= 0 /\
  find_free_slots 1 (clock 9 0) (clock 17 0) [(clock 8 0, clock 18 0)] 0 = Some [] /\
  find_free_slots 1 (clock 9 0) (clock 17 0) [(clock 8 0, clock 18 0)] (-30) = Some [].
Proof. repeat split; try lia; vm_compute; reflexivity. Qed.

(** C6, amended.  When [duration_minutes] is zero or negative no validation
    takes place.  [find_free_slots] returns the empty slot list when no busy
    interval, taken in start order, starts after the running cursor and the
    final cursor plus the duration is after [day_end]; in every other case
    its slot loop never leaves, so no slot list is returned.  It never
    returns a slot. *)
Theorem find_free_slots_nonpositive_duration fuel day_start day_end busy d :
  d <= 0 ->
  find_free_slots fuel day_start day_end busy d =
  match quiet_cursor (sort_by_start busy) day_start with
  | Some c =>
      if (0 <? fuel)%nat && (day_end <? c + timedelta_minutes d)
      then Some [] else None
  | None => None
  end
  /\ (forall slots,
         find_free_slots fuel day_start day_end busy d = Some slots -> slots = []).
Proof.
  intros Hd. pose proof (find_free_slots_stuck fuel day_start day_end busy d Hd) as H.
  split; [exact H|].
  intros slots. rewrite H.
  destruct (quiet_cursor (sort_by_start busy) day_start); [|discriminate].
  destruct (_ && _); [|discriminate].
  intros [= <-]. reflexivity.
Qed.

Lemma find_free_slots_nonpositive_duration_witness :
  0 <= 0 /\
  (forall fuel, find_free_slots fuel (clock 9 0) (clock 17 0) [] 0 = None) /\
  find_free_slots 5 (clock 9 0) (clock 17 0) [(clock 9 0, clock 17 30)] 0 = Some [].
Proof.
  split; [lia|]. split.
  - intros fuel.
    rewrite (proj1 (find_free_slots_nonpositive_duration fuel (clock 9 0)
                      (clock 17 0) [] 0 (Z.le_refl 0))).
    cbn [sort_by_start quiet_cursor]. rewrite andb_false_r. reflexivity.
  - rewrite (proj1 (find_free_slots_nonpositive_duration 5 (clock 9 0)
                      (clock 17 0) [(clock 9 0, clock 17 30)] 0 (Z.le_refl 0))).
    reflexivity.
Defined.



(** The hypothesis of C7 on the busy intervals is needed: a pair whose end
    precedes its start pulls the cursor back behind slots already emitted.
    With the pair (12:00, 10:00) in a 9:00-13:00 window and 60-minute slots,
    the slots 10:00-11:00 and 11:00-12:00 come out twice. *)
Remark find_free_slots_inverted_busy :
  find_free_slots 4 (clock 9 0) (clock 13 0) [(clock 12 0, clock 10 0)] 60
  = Some [mk_slot (clock 9 0) (clock 10 0); mk_slot (clock 10 0) (clock 11 0);
          mk_slot (clock 11 0) (clock 12 0);
          mk_slot (clock 10 0) (clock 11 0); mk_slot (clock 11 0) (clock 12 0);
          mk_slot (clock 12 0) (clock 13 0)].
Proof. vm_compute. reflexivity. Qed.

End SlotFacts.

(* ================================================================= *)
(** * Part III: the booking timestamp parser *)
(* ================================================================= *)

Module ParseFacts.
Import Main.
Open Scope string_scope.
Open Scope Z_scope.

(** ** Slices and suffixes *)

Lemma length_app s t :
  String.length (s ++ t) = (String.length s + String.length t)%nat.
Proof. induction s as [|c s IH]; simpl; congruence. Qed.

Lemma app_empty_r s : s ++ "" = s.
Proof. induction s as [|c s IH]; simpl; congruence. Qed.

Lemma app_assoc_string s t u : (s ++ t) ++ u = s ++ (t ++ u).
Proof. induction s as [|c s IH]; simpl; congruence. Qed.

Lemma substring_0_app p r : substring 0 (String.length p) (p ++ r) = p.
Proof.
  induction p as [|c p IH]; simpl.
  - destruct r; reflexivity.
  - rewrite IH. reflexivity.
Qed.

Lemma substring_skip p s m :
  substring (String.length p) m (p ++ s) = substring 0 m s.
Proof. induction p as [|c p IH]; simpl; [reflexivity|exact IH]. Qed.

Lemma snoc_cases s : s = "" \/ exists s' c, s = s' ++ String c "".
Proof.
  induction s as [|a s IH]; [left; reflexivity|right].
  destruct IH as [->|(s' & c & ->)].
  - exists "", a. reflexivity.
  - exists (String a s'), c. reflexivity.
Qed.

Lemma endswith_snoc s c : endswith (s ++ String c "") "Z" = Ascii.eqb c "Z".
Proof.
  unfold endswith. rewrite length_app. cbn [String.length].
  replace (String.length s + 1 - 1)%nat with (String.length s) by lia.
  rewrite substring_skip. cbn [substring String.eqb].
  destruct (Nat.leb_spec 1 (String.length s + 1)); [|lia].
  destruct (Ascii.eqb c "Z"); reflexivity.
Qed.

Lemma slice_to_last s c : slice_to (-1) (s ++ String c "") = s.
Proof.
  unfold slice_to. rewrite length_app. cbn [String.length].
  change (-1 <? 0) with true. cbv iota.
  replace (Z.to_nat (Z.max 0 (Z.of_nat (String.length s + 1) + -1)))
    with (String.length s) by lia.
  apply substring_0_app.
Qed.

(** A nineteen-character prefix that does not end in ['Z'] survives the
    cleaning unchanged, whatever follows it. *)
Lemma cleaned_prefix p suffix :
  String.length p = 19%nat ->
  endswith p "Z" = false ->
  cleaned (p ++ suffix) = p.
Proof.
  intros Hlen HZ. unfold cleaned.
  assert (Hcut : forall r, slice_to 19 (p ++ r) = p).
  { intros r. unfold slice_to. change (19 <? 0) with false. cbv iota.
    change (Z.to_nat 19) with 19%nat. rewrite <- Hlen. apply substring_0_app. }
  destruct (snoc_cases suffix) as [->|(s' & c & ->)].
  - rewrite app_empty_r, HZ, Hlen. reflexivity.
  - rewrite <- app_assoc_string, endswith_snoc.
    destruct (Ascii.eqb c "Z").
    + rewrite slice_to_last, length_app, Hlen.
      destruct (Nat.ltb_spec 19 (19 + String.length s')) as [Hlt|Hge].
      * apply Hcut.
      * destruct s'; [apply app_empty_r|simpl in Hge; lia].
    + rewrite app_assoc_string, length_app, Hlen. cbn [String.length].
      rewrite length_app. cbn [String.length].
      destruct (Nat.ltb_spec 19 (19 + (String.length s' + 1))); [|lia].
      apply Hcut.
Qed.

(** ** Digits *)

Ltac each_digit a :=
  let H := fresh "H" in
  assert (H : a = 0 \/ a = 1 \/ a = 2 \/ a = 3 \/ a = 4 \/ a = 5 \/ a = 6
              \/ a = 7 \/ a = 8 \/ a = 9) by (unfold digit_val in *; lia);
  repeat (destruct H as [H|H]); subst a.

Lemma digit_digit_char k : digit_val k -> digit (digit_char k) = true.
Proof. intros Hk. each_digit k; reflexivity. Qed.

Lemma digit_value_digit_char k : digit_val k -> digit_value (digit_char k) = k.
Proof. intros Hk. each_digit k; reflexivity. Qed.

Lemma digit_char_not_Z k : digit_val k -> Ascii.eqb (digit_char k) "Z" = false.
Proof. intros Hk. each_digit k; reflexivity. Qed.

Lemma digit_char_not_space k : digit_val k -> Ascii.eqb (digit_char k) " " = false.
Proof. intros Hk. each_digit k; reflexivity. Qed.

(** A character of class [\d] is the digit of its value. *)
Lemma digit_inv c :
  digit c = true -> digit_val (digit_value c) /\ c = digit_char (digit_value c).
Proof.
  unfold digit, in_range, digit_value, digit_char, digit_val.
  change (N_of_ascii "0") with 48%N. change (N_of_ascii "9") with 57%N.
  intros H. apply andb_true_iff in H as [Hlo Hhi].
  apply N.leb_le in Hlo, Hhi. split; [lia|].
  replace (Z.to_N (48 + (Z.of_N (N_of_ascii c) - 48))) with (N_of_ascii c) by lia.
  symmetry. apply ascii_N_embedding.
Qed.

Lemma int_two_digits a b :
  digit_val a -> digit_val b -> int (two_digits a b) = 10 * a + b.
Proof.
  intros Ha Hb. unfold int, two_digits. cbn [skip_spaces].
  rewrite (digit_char_not_space a Ha). cbn [int_digits].
  rewrite !digit_value_digit_char by assumption. lia.
Qed.

Lemma int_four_digits a b c d :
  digit_val a -> digit_val b -> digit_val c -> digit_val d ->
  int (four_digits a b c d) = 1000 * a + 100 * b + 10 * c + d.
Proof.
  intros Ha Hb Hc Hd. unfold int, four_digits. cbn [skip_spaces].
  rewrite (digit_char_not_space a Ha). cbn [int_digits].
  rewrite !digit_value_digit_char by assumption. lia.
Qed.

(** ** First matches *)

Lemma heads_flat_map {A B : Type} (f : A -> list B) l x y :
  heads_with l x -> heads_with (f x) y -> heads_with (flat_map f l) y.
Proof.
  intros [tl ->] [tl' Hfx]. cbn [flat_map]. rewrite Hfx.
  eexists. reflexivity.
Qed.

Lemma heads_map {A B : Type} (g : A -> B) l x :
  heads_with l x -> heads_with (map g l) (g x).
Proof. intros [tl ->]. eexists. reflexivity. Qed.

Lemma heads_hd_error {A : Type} (l : list A) x :
  heads_with l x -> hd_error l = Some x.
Proof. intros [tl ->]. reflexivity. Qed.

Lemma heads_lit p c r : p c = true -> heads_with (match_lit p (String c r)) r.
Proof. intros H. cbn [match_lit]. rewrite H. eexists. reflexivity. Qed.

(** On two digits that spell a value the directive admits, each group
    matches both of them first. *)

Ltac two_digit_group a b :=
  each_digit a; each_digit b; try (exfalso; lia);
  vm_compute; eexists; reflexivity.

Lemma match_group_Y a b c d rest :
  digit_val a -> digit_val b -> digit_val c -> digit_val d ->
  heads_with (match_group re_Y (four_digits a b c d ++ rest))
             (four_digits a b c d, rest).
Proof.
  intros Ha Hb Hc Hd. unfold re_Y, four_digits.
  cbn [append match_group match_seq].
  rewrite !digit_digit_char by assumption.
  eexists. reflexivity.
Qed.

Lemma match_group_m a b rest :
  digit_val a -> digit_val b -> 1 <= 10 * a + b <= 12 ->
  heads_with (match_group re_m (two_digits a b ++ rest)) (two_digits a b, rest).
Proof. intros Ha Hb Hv. two_digit_group a b. Qed.

Lemma match_group_d a b rest :
  digit_val a -> digit_val b -> 1 <= 10 * a + b <= 31 ->
  heads_with (match_group re_d (two_digits a b ++ rest)) (two_digits a b, rest).
Proof. intros Ha Hb Hv. two_digit_group a b. Qed.

Lemma match_group_H a b rest :
  digit_val a -> digit_val b -> 10 * a + b <= 23 ->
  heads_with (match_group re_H (two_digits a b ++ rest)) (two_digits a b, rest).
Proof. intros Ha Hb Hv. two_digit_group a b. Qed.

Lemma match_group_M a b rest :
  digit_val a -> digit_val b -> 10 * a + b <= 59 ->
  heads_with (match_group re_M (two_digits a b ++ rest)) (two_digits a b, rest).
Proof. intros Ha Hb Hv. two_digit_group a b. Qed.

Lemma match_group_S a b rest :
  digit_val a -> digit_val b -> 10 * a + b <= 59 ->
  heads_with (match_group re_S (two_digits a b ++ rest)) (two_digits a b, rest).
Proof. intros Ha Hb Hv. two_digit_group a b. Qed.

(** ** Field checks *)

Lemma check_date_fields_ok y m d :
  check_date_fields y m d = Ok tt <->
  1 <= y <= 9999 /\ 1 <= m <= 12 /\ 1 <= d <= days_in_month y m.
Proof.
  unfold check_date_fields.
  destruct (Z.leb_spec 1 y), (Z.leb_spec y 9999), (Z.leb_spec 1 m),
    (Z.leb_spec m 12), (Z.leb_spec 1 d), (Z.leb_spec d (days_in_month y m));
    cbn [andb negb]; split; intros Hok; try discriminate; try reflexivity; lia.
Qed.

Lemma check_time_fields_ok h mi s us :
  check_time_fields h mi s us = Ok tt <->
  0 <= h <= 23 /\ 0 <= mi <= 59 /\ 0 <= s <= 59 /\ 0 <= us <= 999999.
Proof.
  unfold check_time_fields.
  destruct (Z.leb_spec 0 h), (Z.leb_spec h 23), (Z.leb_spec 0 mi),
    (Z.leb_spec mi 59), (Z.leb_spec 0 s), (Z.leb_spec s 59),
    (Z.leb_spec 0 us), (Z.leb_spec us 999999);
    cbn [andb negb]; split; intros Hok; try discriminate; try reflexivity; lia.
Qed.

Lemma days_in_month_le y m : 1 <= m <= 12 -> days_in_month y m <= 31.
Proof.
  intros Hm. unfold days_in_month.
  destruct ((m =? 2) && is_leap y); [lia|].
  assert (H : m = 1 \/ m = 2 \/ m = 3 \/ m = 4 \/ m = 5 \/ m = 6 \/ m = 7
              \/ m = 8 \/ m = 9 \/ m = 10 \/ m = 11 \/ m = 12) by lia.
  repeat (destruct H as [H|H]); subst m; vm_compute; discriminate.
Qed.

Lemma datetime_new_ok y m d h mi s us z :
  check_date_fields y m d = Ok tt ->
  check_time_fields h mi s us = Ok tt ->
  datetime_new y m d h mi s us z = Ok (mk_datetime y m d h mi s us z).
Proof. intros Hd Ht. unfold datetime_new. rewrite Hd, Ht. reflexivity. Qed.

Lemma datetime_new_inv y m d h mi s us z dt :
  datetime_new y m d h mi s us z = Ok dt ->
  check_date_fields y m d = Ok tt /\ check_time_fields h mi s us = Ok tt /\
  dt = mk_datetime y m d h mi s us z.
Proof.
  unfold datetime_new.
  destruct (check_date_fields y m d) as [[]|]; [|discriminate].
  destruct (check_time_fields h mi s us) as [[]|]; [|discriminate].
  cbn [bind]. intros [= <-]. auto.
Qed.

(** ** [strptime] on the zero-padded form *)

Lemma match_group_S_end a b :
  digit_val a -> digit_val b -> 10 * a + b <= 59 ->
  heads_with (match_group re_S (two_digits a b)) (two_digits a b, "").
Proof.
  intros Ha Hb Hv. pose proof (match_group_S a b "" Ha Hb Hv) as H.
  rewrite app_empty_r in H. exact H.
Qed.

Lemma strptime_digits y1 y2 y3 y4 m1 m2 d1 d2 h1 h2 n1 n2 s1 s2 :
  Forall digit_val [y1; y2; y3; y4; m1; m2; d1; d2; h1; h2; n1; n2; s1; s2]%list ->
  check_date_fields (1000 * y1 + 100 * y2 + 10 * y3 + y4) (10 * m1 + m2)
                    (10 * d1 + d2) = Ok tt ->
  check_time_fields (10 * h1 + h2) (10 * n1 + n2) (10 * s1 + s2) 0 = Ok tt ->
  strptime (four_digits y1 y2 y3 y4 ++ "-" ++ two_digits m1 m2 ++ "-"
              ++ two_digits d1 d2 ++ "T" ++ two_digits h1 h2 ++ ":"
              ++ two_digits n1 n2 ++ ":" ++ two_digits s1 s2)
  = Ok (mk_datetime (1000 * y1 + 100 * y2 + 10 * y3 + y4) (10 * m1 + m2)
                    (10 * d1 + d2) (10 * h1 + h2) (10 * n1 + n2)
                    (10 * s1 + s2) 0 None).
Proof.
  intros Hdig Hdate Htime.
  repeat match goal with
         | H : Forall digit_val (_ :: _) |- _ =>
             let h := fresh "Hdig" in
             inversion H as [|? ? h ?]; subst; clear H
         end.
  pose proof (proj1 (check_date_fields_ok _ _ _) Hdate) as (Hy & Hm & Hd).
  pose proof (days_in_month_le (1000 * y1 + 100 * y2 + 10 * y3 + y4) _ Hm) as Hd31.
  pose proof (proj1 (check_time_fields_ok _ _ _ _) Htime) as (Hh & Hmi & Hs & _).
  assert (Hmatch :
    heads_with
      (match_format (four_digits y1 y2 y3 y4 ++ "-" ++ two_digits m1 m2 ++ "-"
                       ++ two_digits d1 d2 ++ "T" ++ two_digits h1 h2 ++ ":"
                       ++ two_digits n1 n2 ++ ":" ++ two_digits s1 s2))
      (mk_groups (four_digits y1 y2 y3 y4) (two_digits m1 m2) (two_digits d1 d2)
                 (two_digits h1 h2) (two_digits n1 n2) (two_digits s1 s2), "")).
  { unfold match_format.
    eapply heads_flat_map; [apply match_group_Y; assumption|cbv beta iota].
    eapply heads_flat_map; [apply heads_lit; reflexivity|cbv beta].
    eapply heads_flat_map; [apply match_group_m; (assumption || lia)|cbv beta iota].
    eapply heads_flat_map; [apply heads_lit; reflexivity|cbv beta].
    eapply heads_flat_map; [apply match_group_d; (assumption || lia)|cbv beta iota].
    eapply heads_flat_map; [apply heads_lit; reflexivity|cbv beta].
    eapply heads_flat_map; [apply match_group_H; (assumption || lia)|cbv beta iota].
    eapply heads_flat_map; [apply heads_lit; reflexivity|cbv beta].
    eapply heads_flat_map; [apply match_group_M; (assumption || lia)|cbv beta iota].
    eapply heads_flat_map; [apply heads_lit; reflexivity|cbv beta].
    exact (heads_map _ _ _ (match_group_S_end s1 s2 ltac:(assumption)
                              ltac:(assumption) ltac:(lia))). }
  unfold strptime, re_match. rewrite (heads_hd_error _ _ Hmatch).
  cbn [g_Y g_m g_d g_H g_M g_S String.eqb negb].
  rewrite int_four_digits, !int_two_digits by assumption.
  rewrite Hdate. cbn [bind].
  apply datetime_new_ok; assumption.
Qed.

Lemma zero_pad_2 v : zero_pad 2 v = two_digits (v / 10 mod 10) (v mod 10).
Proof. reflexivity. Qed.

Lemma zero_pad_4 v :
  zero_pad 4 v = four_digits (v / 10 / 10 / 10 mod 10) (v / 10 / 10 mod 10)
                             (v / 10 mod 10) (v mod 10).
Proof. reflexivity. Qed.

Lemma mod_10_digit v : digit_val (v mod 10).
Proof. unfold digit_val. pose proof (Z.mod_pos_bound v 10). lia. Qed.

Lemma two_digits_value v : 0 <= v <= 99 -> 10 * (v / 10 mod 10) + v mod 10 = v.
Proof. intros Hv. Z.div_mod_to_equations. lia. Qed.

Lemma four_digits_value v :
  0 <= v <= 9999 ->
  1000 * (v / 10 / 10 / 10 mod 10) + 100 * (v / 10 / 10 mod 10)
  + 10 * (v / 10 mod 10) + v mod 10 = v.
Proof. intros Hv. Z.div_mod_to_equations. lia. Qed.

(** The nineteen characters [isoformat] writes for a date and a time of day
    are read back by [strptime] as the same fields. *)
Lemma strptime_padded y m d h mi s :
  check_date_fields y m d = Ok tt ->
  check_time_fields h mi s 0 = Ok tt ->
  strptime (zero_pad 4 y ++ "-" ++ zero_pad 2 m ++ "-" ++ zero_pad 2 d ++ "T"
              ++ zero_pad 2 h ++ ":" ++ zero_pad 2 mi ++ ":" ++ zero_pad 2 s)
  = Ok (mk_datetime y m d h mi s 0 None).
Proof.
  intros Hdate Htime.
  pose proof (proj1 (check_date_fields_ok _ _ _) Hdate) as (Hy & Hm & Hd).
  pose proof (days_in_month_le y _ Hm) as Hd31.
  pose proof (proj1 (check_time_fields_ok _ _ _ _) Htime) as (Hh & Hmi & Hs & _).
  rewrite zero_pad_4, !zero_pad_2.
  pose proof (four_digits_value y ltac:(lia)) as Ey.
  pose proof (two_digits_value m ltac:(lia)) as Em.
  pose proof (two_digits_value d ltac:(lia)) as Ed.
  pose proof (two_digits_value h ltac:(lia)) as Eh.
  pose proof (two_digits_value mi ltac:(lia)) as Emi.
  pose proof (two_digits_value s ltac:(lia)) as Es.
  pose proof (strptime_digits
                (y / 10 / 10 / 10 mod 10) (y / 10 / 10 mod 10) (y / 10 mod 10)
                (y mod 10) (m / 10 mod 10) (m mod 10) (d / 10 mod 10) (d mod 10)
                (h / 10 mod 10) (h mod 10) (mi / 10 mod 10) (mi mod 10)
                (s / 10 mod 10) (s mod 10)) as H.
  rewrite Ey, Em, Ed, Eh, Emi, Es in H.
  apply H; [|assumption|assumption].
  repeat (constructor; [apply mod_10_digit|]). constructor.
Qed.

Lemma strptime_inv t dt :
  strptime t = Ok dt ->
  check_date_fields (year dt) (month dt) (day dt) = Ok tt /\
  check_time_fields (hour dt) (minute dt) (second dt) 0 = Ok tt /\
  microsecond dt = 0 /\ tz dt = None.
Proof.
  unfold strptime.
  destruct (re_match t) as [[found rest]|]; [|discriminate].
  destruct (negb (rest =? "")%string); [discriminate|].
  destruct (check_date_fields (int (g_Y found)) (int (g_m found)) (int (g_d found)))
    as [[]|]; [|discriminate].
  cbn [bind]. intros H. apply datetime_new_inv in H as (Hd & Ht & ->).
  cbn [year month day hour minute second microsecond tz]. auto.
Qed.

(** ** The pattern of the specification *)

Lemma digit_inv_ex c :
  digit c = true -> exists k, digit_val k /\ c = digit_char k.
Proof. intros H. exists (digit_value c). apply digit_inv, H. Qed.

Lemma int_digits_two a b :
  digit_val a -> digit_val b ->
  int_digits 0 (string_of_list_ascii [digit_char a; digit_char b]) = 10 * a + b.
Proof.
  intros Ha Hb. cbn [string_of_list_ascii int_digits].
  rewrite !digit_value_digit_char by assumption. lia.
Qed.

Lemma int_digits_four a b c d :
  digit_val a -> digit_val b -> digit_val c -> digit_val d ->
  int_digits 0 (string_of_list_ascii
                  [digit_char a; digit_char b; digit_char c; digit_char d])
  = 1000 * a + 100 * b + 10 * c + d.
Proof.
  intros Ha Hb Hc Hd. cbn [string_of_list_ascii int_digits].
  rewrite !digit_value_digit_char by assumption. lia.
Qed.

Lemma wall_clock_fields_inv t y m d h mi sec :
  wall_clock_fields t = Some (y, m, d, h, mi, sec) ->
  exists y1 y2 y3 y4 m1 m2 d1 d2 h1 h2 n1 n2 s1 s2,
    t = four_digits y1 y2 y3 y4 ++ "-" ++ two_digits m1 m2 ++ "-"
          ++ two_digits d1 d2 ++ "T" ++ two_digits h1 h2 ++ ":"
          ++ two_digits n1 n2 ++ ":" ++ two_digits s1 s2 /\
    Forall digit_val [y1; y2; y3; y4; m1; m2; d1; d2; h1; h2; n1; n2; s1; s2]%list /\
    y = 1000 * y1 + 100 * y2 + 10 * y3 + y4 /\ m = 10 * m1 + m2 /\
    d = 10 * d1 + d2 /\ h = 10 * h1 + h2 /\ mi = 10 * n1 + n2 /\
    sec = 10 * s1 + s2.
Proof.
  unfold wall_clock_fields.
  pose proof (string_of_list_ascii_of_string t) as Ht.
  remember (list_ascii_of_string t) as l eqn:El. clear El.
  do 19 (destruct l as [|? l]; [discriminate|]).
  destruct l; [|discriminate].
  match goal with
  | |- (if ?c then _ else _) = _ -> _ => destruct c eqn:Hc; [|discriminate]
  end.
  intros Hf.
  cbn [forallb] in Hc.
  repeat match goal with
         | H : _ && _ = true |- _ => apply andb_true_iff in H; destruct H
         end.
  repeat match goal with
         | H : digit ?c = true |- _ =>
             apply digit_inv_ex in H; destruct H as (? & ? & ->)
         | H : Ascii.eqb ?c _ = true |- _ => apply Ascii.eqb_eq in H; subst c
         end.
  rewrite int_digits_four, !int_digits_two in Hf by assumption.
  injection Hf as <- <- <- <- <- <-.
  do 14 eexists.
  split; [rewrite <- Ht; reflexivity|].
  split; [repeat (constructor; [assumption|]); constructor|].
  repeat split; reflexivity.
Qed.

Lemma parse_as_local_cleaned dt_str :
  parse_as_local dt_str =
  (naive <- strptime (cleaned dt_str) ;; Ok (replace_tzinfo naive LOCAL_TZ)).
Proof. reflexivity. Qed.

(** ** Everything [strptime] reads: fields without their leading zero *)

Ltac bare_group a :=
  each_digit a; try (exfalso; lia); vm_compute; eexists; reflexivity.

Lemma match_group_m_bare a r :
  digit_val a -> 1 <= a ->
  heads_with (match_group re_m (String (digit_char a) (String "-" r)))
             (String (digit_char a) "", String "-" r).
Proof. intros Ha Hv. bare_group a. Qed.

Lemma match_group_d_bare a sep r :
  digit_val a -> 1 <= a -> sep = "T"%char \/ sep = "t"%char ->
  heads_with (match_group re_d (String (digit_char a) (String sep r)))
             (String (digit_char a) "", String sep r).
Proof. intros Ha Hv [->| ->]; bare_group a. Qed.

Lemma match_group_d_blank a r :
  digit_val a -> 1 <= a ->
  heads_with (match_group re_d (String " " (String (digit_char a) r)))
             (String " " (String (digit_char a) ""), r).
Proof. intros Ha Hv. bare_group a. Qed.

Lemma match_group_H_bare a r :
  digit_val a ->
  heads_with (match_group re_H (String (digit_char a) (String ":" r)))
             (String (digit_char a) "", String ":" r).
Proof. intros Ha. bare_group a. Qed.

Lemma match_group_M_bare a r :
  digit_val a ->
  heads_with (match_group re_M (String (digit_char a) (String ":" r)))
             (String (digit_char a) "", String ":" r).
Proof. intros Ha. bare_group a. Qed.

Lemma match_group_S_bare a :
  digit_val a ->
  heads_with (match_group re_S (String (digit_char a) ""))
             (String (digit_char a) "", "").
Proof. intros Ha. bare_group a. Qed.

Lemma match_group_m_field v t r :
  field_text v t -> 1 <= v <= 12 ->
  heads_with (match_group re_m (t ++ String "-" r)) (t, String "-" r).
Proof.
  intros [a b Ha Hb ->|Hv] Hr.
  - apply match_group_m; assumption.
  - apply match_group_m_bare; [assumption|lia].
Qed.

Lemma match_group_d_field v t sep r :
  day_text v t -> 1 <= v <= 31 -> sep = "T"%char \/ sep = "t"%char ->
  heads_with (match_group re_d (t ++ String sep r)) (t, String sep r).
Proof.
  intros [t' [a b Ha Hb ->|Hv]|Hv] Hr Hsep.
  - apply match_group_d; assumption.
  - apply match_group_d_bare; [assumption|lia|assumption].
  - apply match_group_d_blank; [assumption|lia].
Qed.

Lemma match_group_H_field v t r :
  field_text v t -> 0 <= v <= 23 ->
  heads_with (match_group re_H (t ++ String ":" r)) (t, String ":" r).
Proof.
  intros [a b Ha Hb ->|Hv] Hr.
  - apply match_group_H; (assumption || lia).
  - apply match_group_H_bare; assumption.
Qed.

Lemma match_group_M_field v t r :
  field_text v t -> 0 <= v <= 59 ->
  heads_with (match_group re_M (t ++ String ":" r)) (t, String ":" r).
Proof.
  intros [a b Ha Hb ->|Hv] Hr.
  - apply match_group_M; (assumption || lia).
  - apply match_group_M_bare; assumption.
Qed.

Lemma match_group_S_field v t :
  field_text v t -> 0 <= v <= 59 ->
  heads_with (match_group re_S t) (t, "").
Proof.
  intros [a b Ha Hb ->|Hv] Hr.
  - apply match_group_S_end; (assumption || lia).
  - apply match_group_S_bare; assumption.
Qed.

Lemma int_field v t : field_text v t -> int t = v.
Proof.
  intros [a b Ha Hb ->|Hv].
  - apply int_two_digits; assumption.
  - unfold int. cbn [skip_spaces]. rewrite (digit_char_not_space v Hv).
    cbn [int_digits]. rewrite digit_value_digit_char by assumption. lia.
Qed.

Lemma int_day v t : day_text v t -> int t = v.
Proof.
  intros [t' Hf|Hv].
  - apply int_field, Hf.
  - unfold int. cbn [skip_spaces]. change (Ascii.eqb " " " ") with true. cbv iota.
    rewrite (digit_char_not_space v Hv).
    cbn [int_digits]. rewrite digit_value_digit_char by assumption. lia.
Qed.

Lemma int_year v t : year_text v t -> int t = v.
Proof. intros [a b c d Ha Hb Hc Hd ->]. apply int_four_digits; assumption. Qed.

Lemma strptime_complete t dt : wall_clock_text t dt -> strptime t = Ok dt.
Proof.
  intros (tY & tm & td & sep & tH & tM & tS & -> & HY & Hm & Hd & Hsep & HH & HM
          & HS & Hdate & Htime & Hus & Htz).
  destruct dt as [y m d h mi sec us z].
  cbn [year month day hour minute second microsecond tz] in *. subst us z.
  pose proof (proj1 (check_date_fields_ok _ _ _) Hdate) as (By & Bm & Bd).
  pose proof (days_in_month_le y _ Bm) as Bd31.
  pose proof (proj1 (check_time_fields_ok _ _ _ _) Htime) as (Bh & Bmi & Bs & _).
  pose proof (int_year y tY HY) as HintY.
  destruct HY as [a b c e Ha Hb Hc He _].
  set (tY := four_digits a b c e) in *.
  assert (Hmatch :
    heads_with
      (match_format (tY ++ "-" ++ tm ++ "-" ++ td
                        ++ String sep (tH ++ ":" ++ tM ++ ":" ++ tS)))
      (mk_groups tY tm td tH tM tS, "")).
  { unfold match_format. cbn [append].
    eapply heads_flat_map; [apply match_group_Y; assumption|cbv beta iota].
    eapply heads_flat_map; [apply heads_lit; reflexivity|cbv beta].
    eapply heads_flat_map; [apply (match_group_m_field m); (assumption || lia)|cbv beta iota].
    eapply heads_flat_map; [apply heads_lit; reflexivity|cbv beta].
    eapply heads_flat_map;
      [apply (match_group_d_field d); (assumption || lia)|cbv beta iota].
    eapply heads_flat_map.
    { apply heads_lit. destruct Hsep as [->| ->]; reflexivity. }
    cbv beta.
    eapply heads_flat_map; [apply (match_group_H_field h); (assumption || lia)|cbv beta iota].
    eapply heads_flat_map; [apply heads_lit; reflexivity|cbv beta].
    eapply heads_flat_map; [apply (match_group_M_field mi); (assumption || lia)|cbv beta iota].
    eapply heads_flat_map; [apply heads_lit; reflexivity|cbv beta].
    exact (heads_map _ _ _ (match_group_S_field sec tS HS ltac:(lia))). }
  unfold strptime, re_match. rewrite (heads_hd_error _ _ Hmatch).
  cbn [g_Y g_m g_d g_H g_M g_S String.eqb negb].
  rewrite HintY, (int_field m tm Hm), (int_day d td Hd),
    (int_field h tH HH), (int_field mi tM HM), (int_field sec tS HS).
  rewrite Hdate. cbn [bind].
  apply datetime_new_ok; assumption.
Qed.

(** ** Nothing else is read *)

Lemma digit_class_lit a : digit a = true -> digit_class (lit a).
Proof. intros Ha c Hc. apply Ascii.eqb_eq in Hc. subst c. exact Ha. Qed.

Lemma digit_class_in_range lo hi :
  (48 <=? N_of_ascii lo)%N = true -> (N_of_ascii hi <=? 57)%N = true ->
  digit_class (in_range lo hi).
Proof.
  intros Hlo Hhi c. unfold digit, in_range.
  change (N_of_ascii "0") with 48%N. change (N_of_ascii "9") with 57%N.
  intros H. apply andb_true_iff in H as [H1 H2].
  apply N.leb_le in Hlo, Hhi, H1, H2.
  apply andb_true_iff; split; apply N.leb_le; lia.
Qed.

Ltac digit_classes :=
  repeat first [ apply digit_class_lit; reflexivity
               | apply digit_class_in_range; reflexivity ].

Lemma match_seq_one p s txt r :
  digit_class p ->
  match_seq [p] s = Some (txt, r) ->
  s = txt ++ r /\ exists k, digit_val k /\ txt = String (digit_char k) "".
Proof.
  intros Hp. destruct s as [|c s]; cbn [match_seq]; [discriminate|].
  destruct (p c) eqn:Hc; [|discriminate]. intros [= <- <-].
  split; [reflexivity|].
  apply Hp, digit_inv_ex in Hc as (k & Hk & ->). exists k; auto.
Qed.

Lemma match_seq_two p q s txt r :
  digit_class p -> digit_class q ->
  match_seq [p; q] s = Some (txt, r) ->
  s = txt ++ r /\
  exists a b, digit_val a /\ digit_val b /\ txt = two_digits a b.
Proof.
  intros Hp Hq. destruct s as [|c1 [|c2 s]]; cbn [match_seq]; try discriminate.
  - destruct (p c1); discriminate.
  - destruct (p c1) eqn:H1; [|discriminate].
    destruct (q c2) eqn:H2; [|discriminate]. intros [= <- <-].
    split; [reflexivity|].
    apply Hp, digit_inv_ex in H1 as (a & Ha & ->).
    apply Hq, digit_inv_ex in H2 as (b & Hb & ->).
    exists a, b; auto.
Qed.

Lemma match_seq_blank q s txt r :
  digit_class q ->
  match_seq [lit " "; q] s = Some (txt, r) ->
  s = txt ++ r /\
  exists k, digit_val k /\ txt = String " " (String (digit_char k) "").
Proof.
  intros Hq. destruct s as [|c1 [|c2 s]]; cbn [match_seq]; try discriminate.
  - destruct (lit " " c1); discriminate.
  - destruct (lit " " c1) eqn:H1; [|discriminate].
    destruct (q c2) eqn:H2; [|discriminate]. intros [= <- <-].
    split; [reflexivity|].
    apply Ascii.eqb_eq in H1. subst c1.
    apply Hq, digit_inv_ex in H2 as (k & Hk & ->).
    exists k; auto.
Qed.

Lemma match_group_inv alts : forall s x,
  In x (match_group alts s) -> exists a, In a alts /\ match_seq a s = Some x.
Proof.
  induction alts as [|a alts IH]; intros s x; cbn [match_group]; [intros []|].
  destruct (match_seq a s) as [y|] eqn:Hy.
  - intros [<-|Hin].
    + exists a; split; [left; reflexivity|exact Hy].
    + destruct (IH _ _ Hin) as (a' & Ha' & Hm). exists a'; split; [right|]; assumption.
  - intros Hin. destruct (IH _ _ Hin) as (a' & Ha' & Hm).
    exists a'; split; [right|]; assumption.
Qed.

Lemma field_text_two a b :
  digit_val a -> digit_val b -> field_text (int (two_digits a b)) (two_digits a b).
Proof. intros Ha Hb. rewrite int_two_digits by assumption. constructor; auto. Qed.

Lemma field_text_one k :
  digit_val k -> field_text (int (String (digit_char k) "")) (String (digit_char k) "").
Proof.
  intros Hk. rewrite (int_field k _ (field_bare k Hk)). constructor; assumption.
Qed.

(** A group whose branches are one or two digit classes matches the text
    of a field. *)
Lemma match_group_fields alts s txt r :
  Forall (fun a => Forall digit_class a /\
                   (List.length a = 1 \/ List.length a = 2)%nat) alts ->
  In (txt, r) (match_group alts s) ->
  s = txt ++ r /\ field_text (int txt) txt.
Proof.
  intros Halts Hin. apply match_group_inv in Hin as (a & Ha & Hm).
  rewrite Forall_forall in Halts. destruct (Halts _ Ha) as (Hcls & Hlen).
  destruct a as [|p [|q [|? ?]]]; cbn [List.length] in Hlen; try lia.
  - inversion Hcls as [|? ? Hp _]; subst.
    apply (match_seq_one p s txt r Hp) in Hm as (-> & k & Hk & ->).
    split; [reflexivity|apply field_text_one, Hk].
  - inversion Hcls as [|? ? Hp Hcls']; subst.
    inversion Hcls' as [|? ? Hq _]; subst.
    apply (match_seq_two p q s txt r Hp Hq) in Hm as (-> & a & b & Ha' & Hb & ->).
    split; [reflexivity|apply field_text_two; assumption].
Qed.

Ltac field_group :=
  intros H; apply (match_group_fields _ _ _ _) in H; [exact H|];
  repeat (constructor; [split; [repeat (constructor; [digit_classes|]); constructor
                               |cbn [List.length]; lia]|]);
  constructor.

Lemma match_group_m_inv s txt r :
  In (txt, r) (match_group re_m s) -> s = txt ++ r /\ field_text (int txt) txt.
Proof. field_group. Qed.

Lemma match_group_H_inv s txt r :
  In (txt, r) (match_group re_H s) -> s = txt ++ r /\ field_text (int txt) txt.
Proof. field_group. Qed.

Lemma match_group_M_inv s txt r :
  In (txt, r) (match_group re_M s) -> s = txt ++ r /\ field_text (int txt) txt.
Proof. field_group. Qed.

Lemma match_group_S_inv s txt r :
  In (txt, r) (match_group re_S s) -> s = txt ++ r /\ field_text (int txt) txt.
Proof. field_group. Qed.

Lemma match_group_d_inv s txt r :
  In (txt, r) (match_group re_d s) -> s = txt ++ r /\ day_text (int txt) txt.
Proof.
  intros H. apply match_group_inv in H as (a & Ha & Hm).
  unfold re_d in Ha. cbn [In] in Ha.
  destruct Ha as [<-|[<-|[<-|[<-|[<-|[]]]]]].
  - apply match_seq_two in Hm as (-> & a & b & Ha & Hb & ->); [|digit_classes..].
    split; [reflexivity|]. apply day_field, field_text_two; assumption.
  - apply match_seq_two in Hm as (-> & a & b & Ha & Hb & ->); [|digit_classes..].
    split; [reflexivity|]. apply day_field, field_text_two; assumption.
  - apply match_seq_two in Hm as (-> & a & b & Ha & Hb & ->); [|digit_classes..].
    split; [reflexivity|]. apply day_field, field_text_two; assumption.
  - apply match_seq_one in Hm as (-> & k & Hk & ->); [|digit_classes].
    split; [reflexivity|]. apply day_field, field_text_one; assumption.
  - apply match_seq_blank in Hm as (-> & k & Hk & ->); [|digit_classes].
    split; [reflexivity|].
    rewrite (int_day k _ (day_blank k Hk)). apply day_blank, Hk.
Qed.

Lemma match_group_Y_inv s txt r :
  In (txt, r) (match_group re_Y s) -> s = txt ++ r /\ year_text (int txt) txt.
Proof.
  unfold re_Y. cbn [match_group].
  destruct (match_seq [digit; digit; digit; digit] s) as [x|] eqn:Hm; [|intros []].
  intros [->|[]]. revert Hm.
  destruct s as [|c1 [|c2 [|c3 [|c4 s]]]]; cbn [match_seq];
    repeat match goal with
           | |- context [digit ?c] => destruct (digit c) eqn:?
           end;
    intros Hm; try discriminate Hm.
  injection Hm as <- <-.
  repeat match goal with
         | H : digit ?c = true |- _ =>
             apply digit_inv_ex in H; destruct H as (? & ? & ->)
         end.
  split; [reflexivity|].
  match goal with
  | |- year_text _ (String (digit_char ?a) (String (digit_char ?b)
                      (String (digit_char ?c) (String (digit_char ?d) "")))) =>
      change (year_text (int (four_digits a b c d)) (four_digits a b c d));
      rewrite int_four_digits by assumption; constructor; auto
  end.
Qed.

Lemma match_lit_inv p s s' :
  In s' (match_lit p s) -> exists c, s = String c s' /\ p c = true.
Proof.
  destruct s as [|c s]; cbn [match_lit]; [intros []|].
  destruct (p c) eqn:Hc; [|intros []].
  intros [<-|[]]. exists c; auto.
Qed.

Lemma match_format_inv t g r :
  In (g, r) (match_format t) ->
  exists sep,
    t = g_Y g ++ "-" ++ g_m g ++ "-" ++ g_d g
          ++ String sep (g_H g ++ ":" ++ g_M g ++ ":" ++ g_S g ++ r) /\
    (sep = "T"%char \/ sep = "t"%char) /\
    year_text (int (g_Y g)) (g_Y g) /\ field_text (int (g_m g)) (g_m g) /\
    day_text (int (g_d g)) (g_d g) /\ field_text (int (g_H g)) (g_H g) /\
    field_text (int (g_M g)) (g_M g) /\ field_text (int (g_S g)) (g_S g).
Proof.
  unfold match_format. intros H.
  apply in_flat_map in H as ([tY s1] & HY & H). cbv beta iota in H.
  apply in_flat_map in H as (s2 & H1 & H). cbv beta in H.
  apply in_flat_map in H as ([tm s3] & Hm & H). cbv beta iota in H.
  apply in_flat_map in H as (s4 & H2 & H). cbv beta in H.
  apply in_flat_map in H as ([td s5] & Hd & H). cbv beta iota in H.
  apply in_flat_map in H as (s6 & H3 & H). cbv beta in H.
  apply in_flat_map in H as ([tH s7] & HH & H). cbv beta iota in H.
  apply in_flat_map in H as (s8 & H4 & H). cbv beta in H.
  apply in_flat_map in H as ([tM s9] & HM & H). cbv beta iota in H.
  apply in_flat_map in H as (s10 & H5 & H). cbv beta in H.
  apply in_map_iff in H as ([tS s11] & Hg & HS). injection Hg as <- <-.
  apply match_group_Y_inv in HY as (-> & HY).
  apply match_lit_inv in H1 as (c1 & -> & Hc1). apply Ascii.eqb_eq in Hc1. subst c1.
  apply match_group_m_inv in Hm as (-> & Hm).
  apply match_lit_inv in H2 as (c2 & -> & Hc2). apply Ascii.eqb_eq in Hc2. subst c2.
  apply match_group_d_inv in Hd as (-> & Hd).
  apply match_lit_inv in H3 as (sep & -> & Hsep).
  apply match_group_H_inv in HH as (-> & HH).
  apply match_lit_inv in H4 as (c4 & -> & Hc4). apply Ascii.eqb_eq in Hc4. subst c4.
  apply match_group_M_inv in HM as (-> & HM).
  apply match_lit_inv in H5 as (c5 & -> & Hc5). apply Ascii.eqb_eq in Hc5. subst c5.
  apply match_group_S_inv in HS as (-> & HS).
  exists sep. cbn [g_Y g_m g_d g_H g_M g_S].
  split; [reflexivity|]. split.
  { unfold lit_nocase in Hsep. apply orb_true_iff in Hsep as [Hs|Hs];
      apply Ascii.eqb_eq in Hs; auto. }
  repeat split; assumption.
Qed.

Lemma strptime_sound t dt : strptime t = Ok dt -> wall_clock_text t dt.
Proof.
  unfold strptime, re_match.
  destruct (match_format t) as [|[g r] tl] eqn:Hmf; cbn [hd_error]; [discriminate|].
  destruct (String.eqb_spec r "") as [->|]; cbn [negb]; [|discriminate].
  destruct (check_date_fields (int (g_Y g)) (int (g_m g)) (int (g_d g)))
    as [[]|] eqn:Hdate; [|discriminate].
  cbn [bind]. intros Hnew. apply datetime_new_inv in Hnew as (_ & Htime & ->).
  assert (Hin : In (g, "") (match_format t)) by (rewrite Hmf; left; reflexivity).
  apply match_format_inv in Hin
    as (sep & Ht & Hsep & HY & Hm & Hd & HH & HM & HS).
  rewrite app_empty_r in Ht.
  exists (g_Y g), (g_m g), (g_d g), sep, (g_H g), (g_M g), (g_S g).
  cbn [year month day hour minute second microsecond tz].
  repeat split; assumption.
Qed.

(** [strptime] reads exactly the texts of naive datetimes. *)
Lemma strptime_spec t dt : strptime t = Ok dt <-> wall_clock_text t dt.
Proof. split; [apply strptime_sound|apply strptime_complete]. Qed.

(** ** The claims about [parse_as_local] *)

(** C8.  The parser discards a zone or offset suffix instead of converting
    it.  Both ["2025-11-14T16:30:00Z"] and ["2025-11-14T16:30:00-08:00"] are
    cleaned to their first nineteen characters and give the same instant,
    wall clock 2025-11-14T16:30:00 in the local zone; so does that prefix
    followed by anything else.  In general the result is [strptime] of the
    input without a trailing ['Z'] and cut to nineteen characters, with the
    local zone attached. *)
Theorem parse_as_local_discards_suffix :
  cleaned "2025-11-14T16:30:00Z" = "2025-11-14T16:30:00" /\
  cleaned "2025-11-14T16:30:00-08:00" = "2025-11-14T16:30:00" /\
  parse_as_local "2025-11-14T16:30:00Z"
  = Ok (mk_datetime 2025 11 14 16 30 0 0 (Some LOCAL_TZ)) /\
  parse_as_local "2025-11-14T16:30:00-08:00"
  = Ok (mk_datetime 2025 11 14 16 30 0 0 (Some LOCAL_TZ)) /\
  (forall suffix,
      parse_as_local ("2025-11-14T16:30:00" ++ suffix)
      = Ok (mk_datetime 2025 11 14 16 30 0 0 (Some LOCAL_TZ))) /\
  (forall dt_str,
      parse_as_local dt_str
      = (naive <- strptime (cleaned dt_str) ;; Ok (replace_tzinfo naive LOCAL_TZ))).
Proof.
  repeat split; try reflexivity.
  intros suffix. rewrite parse_as_local_cleaned.
  rewrite (cleaned_prefix "2025-11-14T16:30:00" suffix eq_refl eq_refl).
  reflexivity.
Qed.





(** The shape alone does not make the parse succeed: the fields must name a
    date that exists. *)
Remark parse_as_local_rejects_february_30 :
  wall_clock_fields (cleaned "2025-02-30T10:00:00") = Some (2025, 2, 30, 10, 0, 0) /\
  wall_clock_pattern (cleaned "2025-02-30T10:00:00") = false /\
  parse_as_local "2025-02-30T10:00:00" = Raise ValueError.
Proof. repeat split; reflexivity. Qed.

(** What [isoformat] writes for a parsed instant starts with nineteen
    characters that do not end in ['Z']. *)
Lemma padded_length y m d h mi s :
  String.length (zero_pad 4 y ++ "-" ++ zero_pad 2 m ++ "-" ++ zero_pad 2 d ++ "T"
                   ++ zero_pad 2 h ++ ":" ++ zero_pad 2 mi ++ ":" ++ zero_pad 2 s)
  = 19%nat.
Proof. reflexivity. Qed.

Lemma padded_not_Z y m d h mi s :
  endswith (zero_pad 4 y ++ "-" ++ zero_pad 2 m ++ "-" ++ zero_pad 2 d ++ "T"
              ++ zero_pad 2 h ++ ":" ++ zero_pad 2 mi ++ ":" ++ zero_pad 2 s) "Z"
  = false.
Proof.
  rewrite zero_pad_4, !zero_pad_2. unfold endswith, four_digits, two_digits.
  cbn [append String.length Nat.leb Nat.sub substring String.eqb andb].
  rewrite (digit_char_not_Z _ (mod_10_digit s)). reflexivity.
Qed.

(** C10.  [parse_as_local] is idempotent under ISO re-serialisation: when
    it succeeds on [s], whatever UTC offset the zone database gives for the
    result, parsing the [isoformat] of the result yields the same instant. *)
Theorem parse_as_local_isoformat_idempotent
        (utcoffset : tzinfo -> datetime -> Z) s dt :
  parse_as_local s = Ok dt ->
  parse_as_local (isoformat utcoffset dt) = Ok dt.
Proof.
  rewrite parse_as_local_cleaned.
  destruct (strptime (cleaned s)) as [naive|] eqn:Hs; [|discriminate].
  cbn [bind]. intros [= <-].
  apply strptime_inv in Hs as (Hdate & Htime & Hus & Htz).
  destruct naive as [y m d h mi sec us z].
  cbn [year month day hour minute second microsecond tz] in *. subst us z.
  unfold replace_tzinfo, isoformat.
  cbn [year month day hour minute second microsecond tz].
  change (0 =? 0) with true. cbv iota.
  set (off := format_offset _).
  replace (zero_pad 4 y ++ "-" ++ zero_pad 2 m ++ "-" ++ zero_pad 2 d ++ "T"
             ++ zero_pad 2 h ++ ":" ++ zero_pad 2 mi ++ ":" ++ zero_pad 2 sec
             ++ "" ++ off)
    with ((zero_pad 4 y ++ "-" ++ zero_pad 2 m ++ "-" ++ zero_pad 2 d ++ "T"
             ++ zero_pad 2 h ++ ":" ++ zero_pad 2 mi ++ ":" ++ zero_pad 2 sec)
            ++ off)
    by (rewrite !app_assoc_string; reflexivity).
  rewrite parse_as_local_cleaned.
  rewrite (cleaned_prefix _ off (padded_length y m d h mi sec)
             (padded_not_Z y m d h mi sec)).
  rewrite (strptime_padded y m d h mi sec Hdate Htime).
  reflexivity.
Qed.

Lemma parse_as_local_isoformat_idempotent_witness :
  parse_as_local "2025-11-14T16:30:00Z"
  = Ok (mk_datetime 2025 11 14 16 30 0 0 (Some LOCAL_TZ)) /\
  isoformat (fun _ _ => -28800) (mk_datetime 2025 11 14 16 30 0 0 (Some LOCAL_TZ))
  = "2025-11-14T16:30:00-08:00" /\
  parse_as_local
    (isoformat (fun _ _ => -28800) (mk_datetime 2025 11 14 16 30 0 0 (Some LOCAL_TZ)))
  = Ok (mk_datetime 2025 11 14 16 30 0 0 (Some LOCAL_TZ)).
Proof.
  split; [reflexivity|]. split; [reflexivity|].
  exact (parse_as_local_isoformat_idempotent (fun _ _ => -28800)
           "2025-11-14T16:30:00Z" _ eq_refl).
Defined.

End ParseFacts.

(* ================================================================= *)
(** * Part IV: more about the slot computation *)
(* ================================================================= *)

Module SlotExtras.
Import CalendarBackend SlotTerms SlotFacts.

(** ** What the closed form gives, for any busy list *)

Lemma free_slots_of_exact D day_start day_end busy sl :
  0 < D -> In sl (free_slots_of D day_start day_end busy) ->
  day_start <= slot_start sl /\ slot_end sl = slot_start sl + D.
Proof.
  intros HD Hsl. unfold free_slots_of in Hsl.
  destruct (sweep D (sort_by_start busy) day_start) as [l c] eqn:Hsw.
  destruct (sweep_bounds _ HD _ _ _ _ Hsw) as (Hc & _ & Hs).
  apply in_app_or in Hsl as [Hsl|Hsl].
  - apply Hs in Hsl. lia.
  - apply (in_gap_slots _ _ _ _ HD) in Hsl. lia.
Qed.

Lemma free_slots_of_avoids D day_start day_end busy sl b :
  0 < D -> In sl (free_slots_of D day_start day_end busy) -> In b busy ->
  ~ overlaps sl b.
Proof.
  intros HD Hsl Hb. unfold free_slots_of in Hsl.
  destruct (sweep D (sort_by_start busy) day_start) as [l c] eqn:Hsw.
  apply in_sort_by_start in Hb.
  apply in_app_or in Hsl as [Hsl|Hsl].
  - exact (sweep_avoids _ HD _ _ _ _ (sort_by_start_sorted busy) Hsw sl b Hsl Hb).
  - destruct (sweep_bounds _ HD _ _ _ _ Hsw) as (_ & Hends & _).
    apply Hends in Hb. apply (in_gap_slots _ _ _ _ HD) in Hsl.
    unfold overlaps. lia.
Qed.

Lemma free_slots_of_within D day_start day_end busy sl :
  0 < D -> Forall (fun b => fst b <= day_end) busy ->
  In sl (free_slots_of D day_start day_end busy) ->
  day_start <= slot_start sl /\ slot_end sl <= day_end.
Proof.
  intros HD Hbusy Hsl. unfold free_slots_of in Hsl.
  destruct (sweep D (sort_by_start busy) day_start) as [l c] eqn:Hsw.
  destruct (sweep_bounds _ HD _ _ _ _ Hsw) as (Hc & _ & Hs).
  apply in_app_or in Hsl as [Hsl|Hsl].
  - split; [apply Hs in Hsl; lia|].
    exact (sweep_below _ _ HD _ _ _ _ (Forall_sort_by_start _ _ Hbusy) Hsw sl Hsl).
  - apply (in_gap_slots _ _ _ _ HD) in Hsl. lia.
Qed.

Lemma free_slots_of_chronological D day_start day_end busy :
  0 < D -> Forall (fun b => fst b <= snd b) busy ->
  chronological (free_slots_of D day_start day_end busy).
Proof.
  intros HD Hbusy. unfold free_slots_of.
  destruct (sweep D (sort_by_start busy) day_start) as [l c] eqn:Hsw.
  destruct (sweep_chronological _ HD _ _ _ _ (Forall_sort_by_start _ _ Hbusy) Hsw)
    as (Hchr & Hend).
  apply sorted_app; [exact Hchr|apply tiles_sorted, HD|].
  destruct (sweep_bounds _ HD _ _ _ _ Hsw) as (_ & _ & Hs).
  intros a b Ha Hb. pose proof (Hs _ Ha). apply Hend in Ha.
  apply (in_gap_slots _ _ _ _ HD) in Hb.
  unfold before. lia.
Qed.

(** ** No bookable time is missed *)

Lemma gap_slots_cover D lo hi t :
  0 < D -> lo <= t -> t + D <= hi ->
  exists sl, In sl (gap_slots D lo hi) /\ inside t sl.
Proof.
  intros HD Hlo Hhi.
  set (i := (t - lo) / D).
  assert (Hi0 : 0 <= i) by (apply Z.div_pos; lia).
  pose proof (Z.mul_div_le (t - lo) D HD) as Hle. fold i in Hle.
  pose proof (Z.mul_succ_div_gt (t - lo) D HD) as Hgt. fold i in Hgt.
  assert (Hfit : i + 1 <= (hi - lo) / D) by (apply Z.div_le_lower_bound; lia).
  exists (mk_slot (lo + Z.of_nat (Z.to_nat i) * D)
                  (lo + (Z.of_nat (Z.to_nat i) + 1) * D)).
  split.
  - apply nth_error_In with (n := Z.to_nat i).
    unfold gap_slots. apply nth_error_tiles. unfold gap_count. lia.
  - unfold inside. cbn [slot_start slot_end]. rewrite Z2Nat.id by exact Hi0. lia.
Qed.

Lemma sweep_covers D :
  0 < D ->
  forall busy c l c' t,
    sweep D busy c = (l, c') ->
    c <= t ->
    (forall b, In b busy -> ~ overlaps (mk_slot t (t + D)) b) ->
    (exists sl, In sl l /\ inside t sl) \/ c' <= t.
Proof.
  intros HD; induction busy as [|[bs be] rest IH]; intros c l c' t; simpl.
  - intros [= <- <-] Hc _. right; exact Hc.
  - destruct (sweep D rest (Z.max c be)) as [l0 c0] eqn:Hsw. intros [= <- <-] Hc Hfree.
    assert (Hb : be <= t \/ t + D <= bs).
    { pose proof (Hfree (bs, be) (or_introl eq_refl)) as H.
      unfold overlaps in H; cbn [slot_start slot_end fst snd] in H. lia. }
    destruct (Z_lt_le_dec bs (t + D)) as [Hlt|Hge].
    + assert (Hbe : be <= t) by lia.
      destruct (IH (Z.max c be) l0 c0 t Hsw ltac:(lia)
                  (fun b Hin => Hfree b (or_intror Hin))) as [(sl & Hin & Hsl)|Hc0].
      * left. exists sl. split; [apply in_or_app; right; exact Hin|exact Hsl].
      * right; exact Hc0.
    + left. destruct (Z.gtb_spec bs c) as [_|Hle]; [|lia].
      destruct (gap_slots_cover D c bs t HD Hc Hge) as (sl & Hin & Hsl).
      exists sl. split; [apply in_or_app; left; exact Hin|exact Hsl].
Qed.

Lemma free_slots_of_covers D day_start day_end busy t :
  0 < D -> day_start <= t -> t + D <= day_end ->
  (forall b, In b busy -> ~ overlaps (mk_slot t (t + D)) b) ->
  exists sl, In sl (free_slots_of D day_start day_end busy) /\ inside t sl.
Proof.
  intros HD Hlo Hhi Hfree. unfold free_slots_of.
  destruct (sweep D (sort_by_start busy) day_start) as [l c] eqn:Hsw.
  destruct (sweep_covers D HD _ _ _ _ t Hsw Hlo) as [(sl & Hin & Hsl)|Hc].
  - intros b Hb. apply Hfree, in_sort_by_start, Hb.
  - exists sl. split; [apply in_or_app; left; exact Hin|exact Hsl].
  - destruct (gap_slots_cover D c day_end t HD Hc Hhi) as (sl & Hin & Hsl).
    exists sl. split; [apply in_or_app; right; exact Hin|exact Hsl].
Qed.



(** ** How many slots *)

Lemma chrono_span D :
  0 < D ->
  forall l lo hi,
    chronological l ->
    (forall sl, In sl l ->
                lo <= slot_start sl /\ slot_end sl = slot_start sl + D
                /\ slot_end sl <= hi) ->
    l <> [] ->
    Z.of_nat (List.length l) * D <= hi - lo.
Proof.
  intros HD; induction l as [|a l IH]; intros lo hi Hchr Hin Hne; [congruence|].
  inversion Hchr as [|? ? Hl Ha]; subst.
  pose proof (Hin a (or_introl eq_refl)) as (Ha1 & Ha2 & Ha3).
  destruct l as [|b l'].
  - cbn [List.length]. lia.
  - assert (Hrec : Z.of_nat (List.length (b :: l')) * D <= hi - slot_end a).
    { apply IH; [exact Hl| |discriminate].
      intros sl Hsl. rewrite Forall_forall in Ha.
      pose proof (Ha sl Hsl) as [_ Hb]. pose proof (Hin sl (or_intror Hsl)). lia. }
    change (List.length (a :: b :: l')) with (S (List.length (b :: l'))).
    rewrite Nat2Z.inj_succ. lia.
Qed.

(** X2.  With busy intervals that have [start <= end] and start at or
    before [day_end], the slots returned for a positive duration fit side by
    side in the window: there are at most [windowMinutes / duration] of
    them (none when the window is empty or reversed). *)
Theorem find_free_slots_count fuel day_start day_end busy d slots :
  0 < d ->
  Forall (fun b => fst b <= snd b) busy ->
  Forall (fun b => fst b <= day_end) busy ->
  find_free_slots fuel day_start day_end busy d = Some slots ->
  Z.of_nat (List.length slots) * timedelta_minutes d
  <= Z.max 0 (day_end - day_start) /\
  Z.of_nat (List.length slots) <= Z.max 0 (window_minutes day_start day_end) / d.
Proof.
  intros Hd Hwf Hlate Hrun. pose proof (timedelta_minutes_pos d Hd) as HD.
  apply (find_free_slots_run _ _ _ _ _ _ Hd) in Hrun. subst slots.
  set (slots := free_slots_of (timedelta_minutes d) day_start day_end busy).
  destruct slots as [|a l] eqn:Hs.
  - cbn [List.length]. split; [lia|]. apply Z.div_pos; lia.
  - assert (Hspan : Z.of_nat (List.length (a :: l)) * timedelta_minutes d
                    <= day_end - day_start).
    { apply chrono_span; [exact HD| | |discriminate].
      - rewrite <- Hs. apply free_slots_of_chronological; assumption.
      - intros sl Hsl. rewrite <- Hs in Hsl.
        pose proof (free_slots_of_exact _ _ _ _ _ HD Hsl).
        pose proof (free_slots_of_within _ _ _ _ _ HD Hlate Hsl). lia. }
    split; [lia|].
    assert (Hn : 0 < Z.of_nat (List.length (a :: l))) by (cbn [List.length]; lia).
    set (n := Z.of_nat (List.length (a :: l))) in *.
    assert (Hwm : n * d <= window_minutes day_start day_end).
    { unfold window_minutes. apply Z.div_le_lower_bound.
      - unfold timedelta_minutes; lia.
      - unfold timedelta_minutes in *. lia. }
    apply Z.div_le_lower_bound; [exact Hd|]. nia.
Qed.

Lemma find_free_slots_count_witness :
  0 < 45 /\
  Forall (fun b => fst b <= snd b) [(clock 12 0, clock 13 0)] /\
  Forall (fun b => fst b <= clock 17 0) [(clock 12 0, clock 13 0)] /\
  find_free_slots 20 (clock 9 0) (clock 17 0) [(clock 12 0, clock 13 0)] 45
  = Some (tiles (clock 9 0) (timedelta_minutes 45) 4
          ++ tiles (clock 13 0) (timedelta_minutes 45) 5) /\
  Z.of_nat (List.length (tiles (clock 9 0) (timedelta_minutes 45) 4
                         ++ tiles (clock 13 0) (timedelta_minutes 45) 5))
  <= Z.max 0 (window_minutes (clock 9 0) (clock 17 0)) / 45.
Proof.
  assert (H1 : Forall (fun b : interval => fst b <= snd b) [(clock 12 0, clock 13 0)])
    by (repeat constructor; vm_compute; discriminate).
  assert (H2 : Forall (fun b : interval => fst b <= clock 17 0)
                 [(clock 12 0, clock 13 0)])
    by (repeat constructor; vm_compute; discriminate).
  assert (Hrun : find_free_slots 20 (clock 9 0) (clock 17 0)
                   [(clock 12 0, clock 13 0)] 45
                 = Some (tiles (clock 9 0) (timedelta_minutes 45) 4
                         ++ tiles (clock 13 0) (timedelta_minutes 45) 5))
    by (vm_compute; reflexivity).
  split; [lia|]. split; [exact H1|]. split; [exact H2|]. split; [exact Hrun|].
  exact (proj2 (find_free_slots_count 20 (clock 9 0) (clock 17 0)
                  [(clock 12 0, clock 13 0)] 45 _ eq_refl H1 H2 Hrun)).
Defined.

(** ** Booking every returned slot *)

(** X3.  Once every returned slot is booked, nothing is left to offer: for
    a positive duration and busy intervals that start at or before
    [day_end], running [find_free_slots] again on the busy list extended by
    the slots it returned gives the empty list. *)
Theorem find_free_slots_exhausted fuel day_start day_end busy d slots :
  0 < d ->
  Forall (fun b => fst b <= day_end) busy ->
  find_free_slots fuel day_start day_end busy d = Some slots ->
  (exists fuel', find_free_slots fuel' day_start day_end
                   (busy ++ map as_busy slots) d = Some []) /\
  (forall fuel' slots',
      find_free_slots fuel' day_start day_end (busy ++ map as_busy slots) d
      = Some slots' -> slots' = []).
Proof.
  intros Hd Hlate Hrun. pose proof (timedelta_minutes_pos d Hd) as HD.
  apply (find_free_slots_run _ _ _ _ _ _ Hd) in Hrun. subst slots.
  set (slots := free_slots_of (timedelta_minutes d) day_start day_end busy).
  assert (Hlate' : Forall (fun b => fst b <= day_end) (busy ++ map as_busy slots)).
  { apply Forall_app; split; [exact Hlate|].
    apply Forall_forall. intros b Hb. apply in_map_iff in Hb as (sl & <- & Hsl).
    pose proof (free_slots_of_exact _ _ _ _ _ HD Hsl).
    pose proof (free_slots_of_within _ _ _ _ _ HD Hlate Hsl).
    unfold as_busy; cbn [fst]. lia. }
  assert (Hnone : free_slots_of (timedelta_minutes d) day_start day_end
                    (busy ++ map as_busy slots) = []).
  { destruct (free_slots_of (timedelta_minutes d) day_start day_end
                (busy ++ map as_busy slots)) as [|sl' l'] eqn:Hs'; [reflexivity|].
    exfalso.
    assert (Hin' : In sl' (free_slots_of (timedelta_minutes d) day_start day_end
                             (busy ++ map as_busy slots)))
      by (rewrite Hs'; left; reflexivity).
    pose proof (free_slots_of_exact _ _ _ _ _ HD Hin') as (_ & Hlen).
    pose proof (free_slots_of_within _ _ _ _ _ HD Hlate' Hin') as (Hlo & Hhi).
    assert (Hfree : forall b, In b (busy ++ map as_busy slots) -> ~ overlaps sl' b)
      by (intros b Hb; exact (free_slots_of_avoids _ _ _ _ _ _ HD Hin' Hb)).
    destruct (free_slots_of_covers (timedelta_minutes d) day_start day_end busy
                (slot_start sl') HD Hlo ltac:(lia)) as (sl & Hsl & Hins).
    { intros b Hb Hov. apply (Hfree b (in_or_app _ _ _ (or_introl Hb))).
      unfold overlaps in *. cbn [slot_start slot_end] in Hov. lia. }
    apply (Hfree (as_busy sl)).
    - apply in_or_app; right. apply in_map, Hsl.
    - unfold overlaps, as_busy, inside in *. cbn [fst snd]. lia. }
  split.
  - destruct (find_free_slots_enough day_start day_end
                (busy ++ map as_busy slots) d Hd) as [f Hf].
    exists f. rewrite (Hf f (le_n f)), Hnone. reflexivity.
  - intros fuel' slots' Hrun'.
    apply (find_free_slots_run _ _ _ _ _ _ Hd) in Hrun'. rewrite Hnone in Hrun'.
    exact Hrun'.
Qed.

Lemma find_free_slots_exhausted_witness :
  0 < 60 /\
  Forall (fun b => fst b <= clock 12 0) [(clock 10 0, clock 11 0)] /\
  find_free_slots 5 (clock 9 0) (clock 12 0) [(clock 10 0, clock 11 0)] 60
  = Some [mk_slot (clock 9 0) (clock 10 0); mk_slot (clock 11 0) (clock 12 0)] /\
  forall fuel' slots',
    find_free_slots fuel' (clock 9 0) (clock 12 0)
      ([(clock 10 0, clock 11 0)]
       ++ map as_busy [mk_slot (clock 9 0) (clock 10 0);
                       mk_slot (clock 11 0) (clock 12 0)]) 60 = Some slots' ->
    slots' = [].
Proof.
  assert (H1 : Forall (fun b : interval => fst b <= clock 12 0)
                 [(clock 10 0, clock 11 0)])
    by (repeat constructor; vm_compute; discriminate).
  assert (Hrun : find_free_slots 5 (clock 9 0) (clock 12 0)
                   [(clock 10 0, clock 11 0)] 60
                 = Some [mk_slot (clock 9 0) (clock 10 0);
                         mk_slot (clock 11 0) (clock 12 0)])
    by (vm_compute; reflexivity).
  split; [lia|]. split; [exact H1|]. split; [exact Hrun|].
  exact (proj2 (find_free_slots_exhausted 5 (clock 9 0) (clock 12 0)
                  [(clock 10 0, clock 11 0)] 60 _ eq_refl H1 Hrun)).
Defined.



(** ** The order in which the busy intervals arrive *)

Lemma tie_equiv_perm l l' : tie_equiv l l' -> Permutation l l'.
Proof.
  induction 1.
  - apply Permutation_refl.
  - apply perm_swap.
  - apply perm_skip; assumption.
  - eapply Permutation_trans; eassumption.
Qed.








(** ** Busy intervals that are over before the window opens *)




(** ** Where slots start *)

Lemma sweep_anchored D :
  forall busy c l c',
    sweep D busy c = (l, c') ->
    (c' = c \/ exists b, In b busy /\ c' = snd b) /\
    forall sl, In sl l ->
      exists a k, (a = c \/ exists b, In b busy /\ a = snd b) /\
                  0 <= k /\ slot_start sl = a + k * D.
Proof.
  induction busy as [|[bs be] rest IH]; intros c l c'; cbn [sweep].
  - intros [= <- <-]. split; [left; reflexivity|intros sl []].
  - destruct (sweep D rest (Z.max c be)) as [l0 c0] eqn:Hsw. intros [= <- <-].
    destruct (IH _ _ _ Hsw) as (Hc0 & Hl0).
    assert (Hmax : forall a,
               (a = Z.max c be \/ exists b, In b rest /\ a = snd b) ->
               a = c \/ exists b, In b ((bs, be) :: rest) /\ a = snd b).
    { intros a [->|(b & Hb & ->)].
      - destruct (Z.max_spec c be) as [[_ ->]|[_ ->]].
        + right; exists (bs, be); split; [left; reflexivity|reflexivity].
        + left; reflexivity.
      - right; exists b; split; [right; exact Hb|reflexivity]. }
    split; [apply Hmax, Hc0|].
    intros sl Hsl. apply in_app_or in Hsl as [Hsl|Hsl].
    + destruct (bs >? c); [|contradiction].
      destruct (in_tiles _ _ _ _ Hsl) as (i & Hi & Hst & _).
      exists c, i. split; [left; reflexivity|]. split; [lia|exact Hst].
    + destruct (Hl0 sl Hsl) as (a & k & Ha & Hk & Hst).
      exists a, k. split; [apply Hmax, Ha|split; assumption].
Qed.

(** X7.  Slots are counted from the start of the window or from the end of
    a busy interval: for a positive duration, every returned slot starts a
    whole number of durations after [day_start] or after the end of one of
    the busy intervals. *)
Theorem find_free_slots_aligned fuel day_start day_end busy d slots sl :
  0 < d ->
  find_free_slots fuel day_start day_end busy d = Some slots ->
  In sl slots ->
  exists a k,
    anchor day_start busy a /\ 0 <= k /\
    slot_start sl = a + timedelta_minutes (k * d).
Proof.
  intros Hd Hrun Hsl.
  apply (find_free_slots_run _ _ _ _ _ _ Hd) in Hrun. subst slots.
  unfold free_slots_of in Hsl.
  destruct (sweep (timedelta_minutes d) (sort_by_start busy) day_start)
    as [l c] eqn:Hsw.
  destruct (sweep_anchored _ _ _ _ _ Hsw) as (Hc & Hl).
  assert (Hanchor : forall a,
             (a = day_start \/ exists b, In b (sort_by_start busy) /\ a = snd b) ->
             anchor day_start busy a).
  { intros a [->|(b & Hb & ->)]; [left; reflexivity|].
    right; exists b. split; [apply in_sort_by_start, Hb|reflexivity]. }
  assert (Hk : forall k, k * timedelta_minutes d = timedelta_minutes (k * d))
    by (intros k; unfold timedelta_minutes; ring).
  apply in_app_or in Hsl as [Hsl|Hsl].
  - destruct (Hl sl Hsl) as (a & k & Ha & Hk0 & Hst).
    exists a, k. rewrite <- Hk. auto.
  - destruct (in_tiles _ _ _ _ Hsl) as (i & Hi & Hst & _).
    exists c, i. rewrite <- Hk. split; [apply Hanchor, Hc|]. split; [lia|exact Hst].
Qed.

Lemma find_free_slots_aligned_witness :
  0 < 30 /\
  find_free_slots 20 (clock 9 0) (clock 12 0) [(clock 9 30, clock 10 15)] 30
  = Some [mk_slot (clock 9 0) (clock 9 30); mk_slot (clock 10 15) (clock 10 45);
          mk_slot (clock 10 45) (clock 11 15); mk_slot (clock 11 15) (clock 11 45)] /\
  exists a k,
    anchor (clock 9 0) [(clock 9 30, clock 10 15)] a /\ 0 <= k /\
    slot_start (mk_slot (clock 10 45) (clock 11 15)) = a + timedelta_minutes (k * 30).
Proof.
  assert (Hrun : find_free_slots 20 (clock 9 0) (clock 12 0)
                   [(clock 9 30, clock 10 15)] 30
                 = Some [mk_slot (clock 9 0) (clock 9 30);
                         mk_slot (clock 10 15) (clock 10 45);
                         mk_slot (clock 10 45) (clock 11 15);
                         mk_slot (clock 11 15) (clock 11 45)])
    by (vm_compute; reflexivity).
  split; [lia|]. split; [exact Hrun|].
  apply (find_free_slots_aligned 20 (clock 9 0) (clock 12 0)
           [(clock 9 30, clock 10 15)] 30 _ _ eq_refl Hrun).
  right; right; left; reflexivity.
Defined.

End SlotExtras.

(* ================================================================= *)
(** * Part V: booking *)
(* ================================================================= *)

Module BookingFacts.
Import Main Booking ParseFacts.
Open Scope string_scope.
Open Scope Z_scope.

(** ** What [isoformat] writes for a parsed instant *)

Lemma zero_pad_two_digits a b :
  digit_val a -> digit_val b -> zero_pad 2 (10 * a + b) = two_digits a b.
Proof.
  intros Ha Hb. rewrite zero_pad_2. unfold digit_val in *.
  f_equal; [f_equal|do 2 f_equal]; Z.div_mod_to_equations; lia.
Qed.

Lemma zero_pad_four_digits a b c d :
  digit_val a -> digit_val b -> digit_val c -> digit_val d ->
  zero_pad 4 (1000 * a + 100 * b + 10 * c + d) = four_digits a b c d.
Proof.
  intros Ha Hb Hc Hd. rewrite zero_pad_4. unfold digit_val in *.
  unfold four_digits. repeat f_equal; Z.div_mod_to_equations; lia.
Qed.

Lemma digits_not_Z y1 y2 y3 y4 m1 m2 d1 d2 h1 h2 n1 n2 s1 s2 :
  digit_val s2 ->
  endswith (four_digits y1 y2 y3 y4 ++ "-" ++ two_digits m1 m2 ++ "-"
              ++ two_digits d1 d2 ++ "T" ++ two_digits h1 h2 ++ ":"
              ++ two_digits n1 n2 ++ ":" ++ two_digits s1 s2) "Z" = false.
Proof.
  intros Hs2. unfold endswith, four_digits, two_digits.
  cbn [append String.length Nat.leb Nat.sub substring String.eqb andb].
  rewrite (digit_char_not_Z _ Hs2). reflexivity.
Qed.

(** When the cleaned string has the zero-padded form, the parsed instant is
    written back by [isoformat] as that string followed by the offset of the
    local zone. *)
Lemma parse_isoformat_cleaned (utcoffset : tzinfo -> datetime -> Z) dt_str :
  wall_clock_pattern (cleaned dt_str) = true ->
  exists dt,
    parse_as_local dt_str = Ok dt /\
    isoformat utcoffset dt
    = cleaned dt_str ++ format_offset (utcoffset LOCAL_TZ dt).
Proof.
  unfold wall_clock_pattern.
  destruct (wall_clock_fields (cleaned dt_str))
    as [[[[[[y m] d] h] mi] sec]|] eqn:Hf; [|discriminate].
  destruct (datetime_new y m d h mi sec 0 None) as [dt0|] eqn:Hnew; [|discriminate].
  intros _. apply datetime_new_inv in Hnew as (Hdate & Htime & _).
  apply wall_clock_fields_inv in Hf
    as (y1 & y2 & y3 & y4 & m1 & m2 & d1 & d2 & h1 & h2 & n1 & n2 & s1 & s2
        & Ht & Hdig & -> & -> & -> & -> & -> & ->).
  eexists. split.
  - rewrite parse_as_local_cleaned, Ht.
    rewrite (strptime_digits _ _ _ _ _ _ _ _ _ _ _ _ _ _ Hdig Hdate Htime).
    reflexivity.
  - rewrite Ht.
    repeat match goal with
           | H : Forall digit_val (_ :: _) |- _ =>
               let h := fresh "Hdig" in
               inversion H as [|? ? h ?]; subst; clear H
           end.
    unfold replace_tzinfo, isoformat.
    cbn [year month day hour minute second microsecond tz].
    change (0 =? 0) with true. cbv iota.
    rewrite zero_pad_four_digits, !zero_pad_two_digits by assumption.
    rewrite !app_assoc_string. reflexivity.
Qed.

(** X8.  What [book] sends on is the caller's wall clock with the local
    offset: when the cleaned timestamp has the form YYYY-MM-DDTHH:MM:SS (and
    names a date and a time of day), [isoformat] of the parsed instant is the
    cleaned timestamp followed by the UTC offset of the local zone.  So a
    timestamp of that form followed by any suffix comes back with the suffix
    replaced by the local offset. *)
Theorem parse_as_local_isoformat (utcoffset : tzinfo -> datetime -> Z) p :
  wall_clock_pattern p = true ->
  String.length p = 19%nat /\
  forall suffix,
    cleaned (p ++ suffix) = p /\
    exists dt,
      parse_as_local (p ++ suffix) = Ok dt /\
      isoformat utcoffset dt = p ++ format_offset (utcoffset LOCAL_TZ dt).
Proof.
  intros Hp.
  assert (Hshape : String.length p = 19%nat /\ endswith p "Z" = false).
  { unfold wall_clock_pattern in Hp.
    destruct (wall_clock_fields p) as [[[[[[y m] d] h] mi] sec]|] eqn:Hf;
      [|discriminate].
    apply wall_clock_fields_inv in Hf
      as (y1 & y2 & y3 & y4 & m1 & m2 & d1 & d2 & h1 & h2 & n1 & n2 & s1 & s2
          & -> & Hdig & _).
    split; [reflexivity|]. apply digits_not_Z.
    rewrite Forall_forall in Hdig. apply Hdig.
    do 13 right. left. reflexivity. }
  destruct Hshape as (Hlen & HZ). split; [exact Hlen|].
  intros suffix.
  pose proof (cleaned_prefix p suffix Hlen HZ) as Hclean.
  split; [exact Hclean|].
  destruct (parse_isoformat_cleaned utcoffset (p ++ suffix)) as (dt & Hparse & Hiso).
  { rewrite Hclean. exact Hp. }
  exists dt. rewrite Hclean in Hiso. auto.
Qed.

Lemma parse_as_local_isoformat_witness :
  wall_clock_pattern "2025-11-15T10:00:00" = true /\
  exists dt,
    parse_as_local ("2025-11-15T10:00:00" ++ "+05:30") = Ok dt /\
    isoformat (fun _ _ => -28800) dt
    = "2025-11-15T10:00:00" ++ format_offset ((fun _ _ => -28800) LOCAL_TZ dt).
Proof.
  split; [reflexivity|].
  exact (proj2 (proj2 (parse_as_local_isoformat (fun _ _ => -28800)
                         "2025-11-15T10:00:00" eq_refl) "+05:30")).
Defined.

(** ** [book] *)

Lemma parse_as_local_raises dt_str :
  (~ exists naive, wall_clock_text (cleaned dt_str) naive) ->
  parse_as_local dt_str = Raise ValueError.
Proof.
  intros Hnone. rewrite parse_as_local_cleaned.
  destruct (strptime (cleaned dt_str)) as [naive|[]] eqn:Hs; [|reflexivity].
  exfalso. apply Hnone. exists naive. apply strptime_sound, Hs.
Qed.

(** X9.  A booking with a timestamp that cannot be parsed never reaches the
    provider: if the cleaned start or the cleaned end is not the text of a
    wall-clock time, [book] raises the parser's [ValueError] and the
    calendar is left as it was, whatever the provider would have done. *)
Theorem book_rejects_bad_timestamp
        (calendar : Type) (insert : event_body -> calendar -> (string + dict) * calendar)
        (utcoffset : tzinfo -> datetime -> Z) req cal :
  (~ exists naive, wall_clock_text (cleaned (start req)) naive) \/
  (~ exists naive, wall_clock_text (cleaned (end_ req)) naive) ->
  book calendar insert utcoffset req cal = (Failed (BadTimestamp ValueError), cal).
Proof.
  intros [Hbad|Hbad]; apply parse_as_local_raises in Hbad; unfold book.
  - rewrite Hbad. reflexivity.
  - destruct (parse_as_local (start req)) as [start_local|[]]; [|reflexivity].
    rewrite Hbad. reflexivity.
Qed.

Lemma book_rejects_bad_timestamp_witness :
  (~ exists naive, wall_clock_text (cleaned "tomorrow") naive) /\
  book (list event_body)
       (fun body cal => (inr [("id", "e1")]%list, (body :: cal)%list))
       (fun _ _ => -28800)
       (mk_request "2025-11-15T10:00:00" "tomorrow" "Review" "") nil
  = (Failed (BadTimestamp ValueError), nil).
Proof.
  assert (H : ~ exists naive, wall_clock_text (cleaned "tomorrow") naive).
  { intros [naive Hn]. apply strptime_complete in Hn.
    vm_compute in Hn. discriminate. }
  split; [exact H|].
  exact (book_rejects_bad_timestamp (list event_body)
           (fun body cal => (inr [("id", "e1")]%list, (body :: cal)%list))
           (fun _ _ => -28800)
           (mk_request "2025-11-15T10:00:00" "tomorrow" "Review" "") nil
           (or_intror H)).
Defined.

(** X10.  When both cleaned timestamps have the form YYYY-MM-DDTHH:MM:SS (and
    name a date and a time of day), the provider is asked once, for an event
    whose start and end are the cleaned timestamps followed by the local
    offset and whose summary and description are the caller's; if it answers
    with an event that has an [id], [book] returns the confirmation with
    that id and the answer's [htmlLink], if any.  The end is not compared
    with the start. *)
Theorem book_confirms
        (calendar : Type) (insert : event_body -> calendar -> (string + dict) * calendar)
        (utcoffset : tzinfo -> datetime -> Z) req cal :
  wall_clock_pattern (cleaned (start req)) = true ->
  wall_clock_pattern (cleaned (end_ req)) = true ->
  exists start_local end_local,
    parse_as_local (start req) = Ok start_local /\
    parse_as_local (end_ req) = Ok end_local /\
    forall event cal' i,
      insert (mk_body (summary req) (description req)
                (cleaned (start req)
                   ++ format_offset (utcoffset LOCAL_TZ start_local))
                (cleaned (end_ req)
                   ++ format_offset (utcoffset LOCAL_TZ end_local))) cal
      = (inr event, cal') ->
      dict_get "id" event = Some i ->
      book calendar insert utcoffset req cal
      = (Done (mk_confirmation "confirmed"
                 (mk_booked i (dict_get "htmlLink" event))), cal').
Proof.
  intros Hs He.
  destruct (parse_isoformat_cleaned utcoffset _ Hs) as (start_local & Hps & His).
  destruct (parse_isoformat_cleaned utcoffset _ He) as (end_local & Hpe & Hie).
  exists start_local, end_local. split; [exact Hps|]. split; [exact Hpe|].
  intros event cal' i Hins Hid.
  unfold book, book_event. rewrite Hps, Hpe, His, Hie, Hins, Hid. reflexivity.
Qed.

Lemma book_confirms_witness :
  wall_clock_pattern (cleaned "2025-11-15T10:00:00Z") = true /\
  wall_clock_pattern (cleaned "2025-11-15T10:30:00Z") = true /\
  book (list event_body)
       (fun body cal => (inr [("id", "e1")]%list, (body :: cal)%list))
       (fun _ _ => -28800)
       (mk_request "2025-11-15T10:00:00Z" "2025-11-15T10:30:00Z" "Review" "") nil
  = (Done (mk_confirmation "confirmed" (mk_booked "e1" None)),
     [mk_body "Review" "" "2025-11-15T10:00:00-08:00" "2025-11-15T10:30:00-08:00"]%list).
Proof.
  split; [reflexivity|]. split; [reflexivity|].
  destruct (book_confirms (list event_body)
              (fun body cal => (inr [("id", "e1")]%list, (body :: cal)%list))
              (fun _ _ => -28800)
              (mk_request "2025-11-15T10:00:00Z" "2025-11-15T10:30:00Z" "Review" "")
              nil eq_refl eq_refl) as (sl & el & _ & _ & H).
  apply (H _ _ "e1" eq_refl eq_refl).
Defined.



End BookingFacts.

(* ================================================================= *)
(** * Part VI: the date of an availability request and the work window *)
(* ================================================================= *)

Module AvailabilityFacts.
Import Main Availability ParseFacts.
Open Scope string_scope.
Open Scope Z_scope.

(** ** [strptime] with ["%Y-%m-%d"] *)



Lemma strptime_date_sound t dt : strptime_date t = Ok dt -> date_text t dt.
Proof.
  unfold strptime_date.
  destruct (match_format_date t) as [|[[[tY tm] td] r] tl] eqn:Hmf;
    cbn [hd_error]; [discriminate|].
  destruct (String.eqb_spec r "") as [->|]; cbn [negb]; [|discriminate].
  destruct (check_date_fields (int tY) (int tm) (int td)) as [[]|] eqn:Hdate;
    [|discriminate].
  cbn [bind]. intros Hnew. apply datetime_new_inv in Hnew as (_ & _ & ->).
  assert (Hin : In ((tY, tm, td), "") (match_format_date t))
    by (rewrite Hmf; left; reflexivity).
  unfold match_format_date in Hin.
  apply in_flat_map in Hin as ([tY' s1] & HY & H). cbv beta iota in H.
  apply in_flat_map in H as (s2 & H1 & H). cbv beta in H.
  apply in_flat_map in H as ([tm' s3] & Hm & H). cbv beta iota in H.
  apply in_flat_map in H as (s4 & H2 & H). cbv beta in H.
  apply in_map_iff in H as ([td' s5] & Hg & Hd). injection Hg as -> -> -> ->.
  apply match_group_Y_inv in HY as (-> & HY).
  apply match_lit_inv in H1 as (c1 & -> & Hc1). apply Ascii.eqb_eq in Hc1. subst c1.
  apply match_group_m_inv in Hm as (-> & Hm).
  apply match_lit_inv in H2 as (c2 & -> & Hc2). apply Ascii.eqb_eq in Hc2. subst c2.
  apply match_group_d_inv in Hd as (-> & Hd).
  rewrite app_empty_r.
  exists tY, tm, td. cbn [year month day hour minute second microsecond tz].
  repeat split; assumption.
Qed.

Lemma field_text_length v t :
  field_text v t -> (1 <= String.length t <= 2)%nat.
Proof. intros [a b _ _ _|_]; cbn; lia. Qed.

Lemma date_text_length t dt :
  date_text t dt -> (8 <= String.length t <= 10)%nat.
Proof.
  intros (tY & tm & td & -> & HY & Hm & Hd & _).
  destruct HY as [a b c e _ _ _ _ _].
  pose proof (field_text_length _ _ Hm).
  assert (1 <= String.length td <= 2)%nat.
  { destruct Hd as [t' Hf|_]; [exact (field_text_length _ _ Hf)|cbn; lia]. }
  rewrite !length_app. unfold four_digits. cbn [String.length]. lia.
Qed.

(** ** The date of a request *)



(** X13.  Without an upper-case ['T'], a request date shorter than eight or
    longer than ten characters is refused with a [ValueError]; so is, for
    instance, any full timestamp written with a lower-case ['t'] or with a
    blank between date and time. *)
Theorem check_availability_length
        (fromisoformat : string -> result datetime)
        (astimezone : datetime -> tzinfo -> datetime) raw :
  contains_char "T" raw = false ->
  (String.length raw < 8 \/ 10 < String.length raw)%nat ->
  check_availability_dt fromisoformat astimezone raw = Raise ValueError.
Proof.
  intros HT Hlen. unfold check_availability_dt. rewrite HT.
  destruct (strptime_date raw) as [naive|[]] eqn:Hs; [|reflexivity].
  apply strptime_date_sound, date_text_length in Hs. lia.
Qed.

Lemma check_availability_length_witness :
  contains_char "T" "2025-11-15t09:00:00" = false /\
  (String.length "2025-11-15t09:00:00" < 8
   \/ 10 < String.length "2025-11-15t09:00:00")%nat /\
  check_availability_dt (fun _ => Raise ValueError) (fun dt _ => dt)
    "2025-11-15t09:00:00" = Raise ValueError.
Proof.
  assert (H : (String.length "2025-11-15t09:00:00" < 8
               \/ 10 < String.length "2025-11-15t09:00:00")%nat)
    by (right; cbn; lia).
  split; [reflexivity|]. split; [exact H|].
  exact (check_availability_length (fun _ => Raise ValueError) (fun dt _ => dt)
           "2025-11-15t09:00:00" eq_refl H).
Defined.


(** ** The work window *)

Lemma tuple_compare_refl_then x a b :
  tuple_compare (x :: a) (x :: b) = tuple_compare a b.
Proof. cbn [tuple_compare]. rewrite Z.compare_refl. reflexivity. Qed.

(** X15.  For a date that exists, the work window is built exactly when
    both hours lie between 0 and 23 (an end hour of 24 raises [ValueError]);
    [day_start] and [day_end] are then that date at the given hours, zero
    minutes, seconds and microseconds, in the zone of [date_local], and they
    compare as the two hours do: the window is empty or reversed exactly
    when [work_start_hour >= work_end_hour]. *)
Theorem day_window_hours date_local work_start_hour work_end_hour :
  check_date_fields (year date_local) (month date_local) (day date_local) = Ok tt ->
  (forall day_start day_end,
      day_window date_local work_start_hour work_end_hour = Ok (day_start, day_end)
      <->
      0 <= work_start_hour <= 23 /\ 0 <= work_end_hour <= 23 /\
      day_start = mk_datetime (year date_local) (month date_local) (day date_local)
                              work_start_hour 0 0 0 (tz date_local) /\
      day_end = mk_datetime (year date_local) (month date_local) (day date_local)
                            work_end_hour 0 0 0 (tz date_local)) /\
  (forall day_start day_end,
      day_window date_local work_start_hour work_end_hour = Ok (day_start, day_end) ->
      datetime_compare day_start day_end = (work_start_hour ?= work_end_hour)).
Proof.
  intros Hdate.
  assert (Hiff : forall day_start day_end,
      day_window date_local work_start_hour work_end_hour = Ok (day_start, day_end)
      <->
      0 <= work_start_hour <= 23 /\ 0 <= work_end_hour <= 23 /\
      day_start = mk_datetime (year date_local) (month date_local) (day date_local)
                              work_start_hour 0 0 0 (tz date_local) /\
      day_end = mk_datetime (year date_local) (month date_local) (day date_local)
                            work_end_hour 0 0 0 (tz date_local)).
  { intros day_start day_end. unfold day_window, replace_hour. split.
    - destruct (datetime_new _ _ _ work_start_hour 0 0 0 _) as [ds|] eqn:Hs;
        [|discriminate].
      cbn [bind].
      destruct (datetime_new _ _ _ work_end_hour 0 0 0 _) as [de|] eqn:He;
        [|discriminate].
      cbn [bind]. intros [= <- <-].
      apply datetime_new_inv in Hs as (_ & Hts & ->).
      apply datetime_new_inv in He as (_ & Hte & ->).
      apply check_time_fields_ok in Hts, Hte. repeat split; lia.
    - intros (Hs & He & -> & ->).
      rewrite !datetime_new_ok;
        try assumption; try (apply check_time_fields_ok; lia).
      reflexivity. }
  split; [exact Hiff|].
  intros day_start day_end Hw. apply Hiff in Hw as (_ & _ & -> & ->).
  unfold datetime_compare. cbn [year month day hour minute second microsecond].
  rewrite !tuple_compare_refl_then. cbn [tuple_compare].
  destruct (work_start_hour ?= work_end_hour); reflexivity.
Qed.

Lemma day_window_hours_witness :
  check_date_fields 2025 11 15 = Ok tt /\
  day_window (mk_datetime 2025 11 15 0 0 0 0 (Some LOCAL_TZ)) 9 24
  <> Ok (mk_datetime 2025 11 15 9 0 0 0 (Some LOCAL_TZ),
         mk_datetime 2025 11 15 24 0 0 0 (Some LOCAL_TZ)) /\
  datetime_compare (mk_datetime 2025 11 15 17 0 0 0 (Some LOCAL_TZ))
                   (mk_datetime 2025 11 15 9 0 0 0 (Some LOCAL_TZ)) = Gt.
Proof.
  split; [reflexivity|]. split.
  - intros H.
    apply (proj1 (day_window_hours (mk_datetime 2025 11 15 0 0 0 0 (Some LOCAL_TZ))
                    9 24 eq_refl)) in H.
    destruct H as (_ & H24 & _). lia.
  - apply (proj2 (day_window_hours (mk_datetime 2025 11 15 0 0 0 0 (Some LOCAL_TZ))
                    17 9 eq_refl)).
    reflexivity.
Defined.

End AvailabilityFacts.
